(** * ReMAIn: real-power flexibility against the power disturbance curve

    A shallow embedding of the four computational functions of [main.py]
    ([get_asset_flexibility], [get_power_disturbance_curve],
    [flexibility_aggreagation], [get_max_min_disturbance]) and the
    properties of them that the specification states.

    Numbers.  The program computes on IEEE doubles; here every number is an
    exact rational ([Q]), equality of numbers is [Qeq] ([==]) and no rounding
    takes place.  Comparisons, clamps and index searches are the ones the
    code performs; only the rounding of [+], [*] and [/] is idealised.

    Arrays.  A one-dimensional numpy array is a [list Q].  A value that may
    be either a Python scalar or an array (the fields of a flexibility
    dictionary) is an [ndval]; binary operations on such values follow
    numpy's broadcasting.

    Exceptions.  A call that raises returns [Raise e]. *)

From Stdlib Require Import QArith Qminmax Qfield Lqa.
From Stdlib Require Import List Bool Arith ZArith Lia Permutation.
Import ListNotations.

Open Scope Q_scope.

(** ** Exceptions and the result monad *)

Inductive exn : Type :=
| KeyError            (* a dictionary key that is not there *)
| IndexError          (* an index outside an array, [a[0]] on an empty one *)
| ValueError          (* operands could not be broadcast together *)
| ZeroDivisionError   (* division of a Python float by zero *)
| FloatingPointError. (* numpy division by zero: inf or nan, which the
                         rational model has no value for *)

Inductive result (A : Type) : Type :=
| Ok (a : A)
| Raise (e : exn).

Arguments Ok {A} a.
Arguments Raise {A} e.

Definition bind {A B : Type} (r : result A) (k : A -> result B) : result B :=
  match r with
  | Ok a => k a
  | Raise e => Raise e
  end.

Notation "x <- r ;; k" := (bind r (fun x => k))
  (at level 61, r at next level, right associativity).

Definition of_option {A : Type} (e : exn) (o : option A) : result A :=
  match o with
  | Some a => Ok a
  | None => Raise e
  end.

(** ** Comparisons of numbers *)

Definition Qlt_bool (x y : Q) : bool :=
  (Qnum x * QDen y <? Qnum y * QDen x)%Z.

Definition Qgt_bool (x y : Q) : bool := Qlt_bool y x.

(** ** numpy *)

Module np.

(** [np.pi], the double nearest to pi, as the rational it is. *)
Definition pi : Q := 884279719003555 # 281474976710656.

(** [np.where(cond, x, ys)] for a scalar [x] and arrays [cond], [ys]. *)
Fixpoint where_ (cond : list bool) (x : Q) (ys : list Q) : list Q :=
  match cond, ys with
  | c :: cond', y :: ys' => (if c then x else y) :: where_ cond' x ys'
  | _, _ => []
  end.

(** [a.cumsum()]: running sums, the first one being [a[0]] itself. *)
Fixpoint cumsum_from (acc : Q) (xs : list Q) : list Q :=
  match xs with
  | [] => []
  | x :: xs' => (acc + x) :: cumsum_from (acc + x) xs'
  end.

Definition cumsum (xs : list Q) : list Q :=
  match xs with
  | [] => []
  | x :: xs' => x :: cumsum_from x xs'
  end.

(** [np.argwhere(cond)[0]]: the first index at which [cond] holds;
    indexing the empty result raises [IndexError]. *)
Fixpoint first_true (cond : list bool) : option nat :=
  match cond with
  | [] => None
  | true :: _ => Some O
  | false :: cond' => option_map S (first_true cond')
  end.

Definition argwhere0 (cond : list bool) : result nat :=
  of_option IndexError (first_true cond).

(** [a[i]] for a nonnegative index. *)
Definition getitem (a : list Q) (i : nat) : result Q :=
  of_option IndexError (nth_error a i).

(** Elementwise binary operation on two arrays under the broadcasting
    rule for one dimension: equal lengths, or one of them of length 1. *)
Definition broadcast {A : Type} (f : Q -> Q -> A) (xs ys : list Q)
  : result (list A) :=
  if Nat.eqb (length xs) (length ys) then
    Ok (map (fun p => f (fst p) (snd p)) (combine xs ys))
  else
    match xs, ys with
    | [x], _ => Ok (map (fun y => f x y) ys)
    | _, [y] => Ok (map (fun x => f x y) xs)
    | _, _ => Raise ValueError
    end.

End np.

(** A Python scalar or a one-dimensional array. *)
Inductive ndval : Type :=
| Scalar (x : Q)
| Arr (xs : list Q).

(** [v op w] elementwise, with broadcasting. *)
Definition nd_binop (f : Q -> Q -> Q) (v w : ndval) : result ndval :=
  match v, w with
  | Scalar x, Scalar y => Ok (Scalar (f x y))
  | Scalar x, Arr ys => Ok (Arr (map (fun y => f x y) ys))
  | Arr xs, Scalar y => Ok (Arr (map (fun x => f x y) xs))
  | Arr xs, Arr ys => r <- np.broadcast f xs ys ;; Ok (Arr r)
  end.

Definition nd_add : ndval -> ndval -> result ndval := nd_binop Qplus.

(** [a op v] for an array [a] and a scalar or array [v], as a mask. *)
Definition nd_compare (f : Q -> Q -> bool) (a : list Q) (v : ndval)
  : result (list bool) :=
  match v with
  | Scalar y => Ok (map (fun x => f x y) a)
  | Arr ys => np.broadcast f a ys
  end.

(** The value a scalar or array has at index [k] when it is broadcast
    against an array. *)
Definition nd_nth (v : ndval) (k : nat) : option Q :=
  match v with
  | Scalar x => Some x
  | Arr xs => nth_error xs k
  end.

(** ** Data *)

(** An asset dictionary.  The six rate and bound keys are always there;
    ['Charge'] and ['Energy'] are there for storage only. *)
Record asset : Type := mk_asset {
  Output : Q;
  Max_Output : Q;
  Min_Output : Q;
  Latency : Q;
  Ramp_Up : Q;
  Ramp_Down : Q;
  Charge : option Q;
  Energy : option Q
}.

(** A flexibility dictionary [{'Up': .., 'Down': .., 'Output': ..}]; the
    aggregate has no ['Output'] key. *)
Record flex : Type := mk_flex {
  Up : ndval;
  Down : ndval;
  flex_Output : option Q
}.

(** The system dictionary. *)
Record system : Type := mk_system {
  inertia : Q;
  freq : Q;
  freq_min : Q;
  freq_max : Q
}.

(** The disturbance curve [{'lower': .., 'upper': ..}], two arrays. *)
Record curve : Type := mk_curve {
  lower : list Q;
  upper : list Q
}.

(** The dictionary [get_max_min_disturbance] returns.  numpy hands each
    entry back as a one-element array (the index is one); the record holds
    that element. *)
Record disturbance : Type := mk_disturbance {
  max_dist : Q;
  min_dist : Q;
  max_dist_time : Q;
  min_dist_time : Q
}.

(** ** get_asset_flexibility *)

(** Lines 21-23: the ramp up from the operating point, not before the
    latency and not past the head room. *)
Definition ramp_up (a : asset) (time : list Q) : list Q :=
  let up := map (fun t => t * Ramp_Up a - Latency a * Ramp_Up a) time in
  let up := np.where_ (map (fun u => Qlt_bool u 0) up) 0 up in
  np.where_ (map (fun u => Qgt_bool u (Max_Output a - Output a)) up)
            (Max_Output a - Output a) up.

(** Lines 26-28: the same downwards. *)
Definition ramp_down (a : asset) (time : list Q) : list Q :=
  let down :=
    map (fun t => t * - Ramp_Down a - Latency a * - Ramp_Down a) time in
  let down := np.where_ (map (fun d => Qgt_bool d 0) down) 0 down in
  np.where_ (map (fun d => Qlt_bool d (Min_Output a - Output a)) down)
            (Min_Output a - Output a) down.

(** Line 36: [np.where(up.cumsum() * dt > energy_to_empty, 0, up)]. *)
Definition limit_up (dt energy_to_empty : Q) (up : list Q) : list Q :=
  np.where_ (map (fun c => Qgt_bool (c * dt) energy_to_empty) (np.cumsum up))
            0 up.

(** Line 37: [np.where(-down.cumsum() * dt > energy_to_full, 0, down)]. *)
Definition limit_down (dt energy_to_full : Q) (down : list Q) : list Q :=
  np.where_
    (map (fun c => Qgt_bool (- c * dt) energy_to_full) (np.cumsum down))
    0 down.

Definition get_asset_flexibility (a : option asset) (time : list Q)
  : result flex :=
  match a with
  | None => Ok (mk_flex (Scalar 0) (Scalar 0) (Some 0))
  | Some a =>
      let up := ramp_up a time in
      let down := ramp_down a time in
      match Charge a with
      | None => Ok (mk_flex (Arr up) (Arr down) (Some (Output a)))
      | Some charge =>
          energy <- of_option KeyError (Energy a) ;;
          let energy_to_empty := charge * energy / 100 in
          let energy_to_full := energy - energy_to_empty in
          t1 <- np.getitem time 1 ;;
          t0 <- np.getitem time 0 ;;
          let dt := t1 - t0 in
          Ok (mk_flex (Arr (limit_up dt energy_to_empty up))
                      (Arr (limit_down dt energy_to_full down))
                      (Some (Output a)))
      end
  end.

(** ** get_power_disturbance_curve *)

(** [x / y] on Python floats. *)
Definition py_div (x y : Q) : result Q :=
  if Qeq_bool y 0 then Raise ZeroDivisionError else Ok (x / y).

(** [x / time] for a scalar [x] and an array [time].  Where an entry of
    [time] is zero numpy warns and gives inf or nan; the model stops. *)
Definition np_rdiv (x : Q) (time : list Q) : result (list Q) :=
  if existsb (fun t => Qeq_bool t 0) time then Raise FloatingPointError
  else Ok (map (fun t => x / t) time).

Definition get_power_disturbance_curve (time : list Q) (sys : system)
  : result curve :=
  let K := inertia sys in
  J <- py_div (2 * K) ((4 * np.pi * freq sys / 2) ^ 2) ;;
  let K_m := (1 / 2 * J) * (4 * np.pi * freq_min sys / 2) ^ 2 in
  let K_M := (1 / 2 * J) * (4 * np.pi * freq_max sys / 2) ^ 2 in
  let K_a_m := K - K_m in
  let K_a_M := K_M - K in
  P_d_m <- np_rdiv K_a_m time ;;
  P_d_M <- np_rdiv (- K_a_M) time ;;
  Ok (mk_curve P_d_M P_d_m).

(** ** flexibility_aggreagation *)

(** [a + b + c + d + e], left to right. *)
Definition sum5 (a b c d e : ndval) : result ndval :=
  ab <- nd_add a b ;;
  abc <- nd_add ab c ;;
  abcd <- nd_add abc d ;;
  nd_add abcd e.

Definition flexibility_aggreagation
  (gas_fired_flex hydro_flex solar_flex wind_flex battery_flex : flex)
  : result flex :=
  flex_up <- sum5 (Up gas_fired_flex) (Up hydro_flex) (Up solar_flex)
                  (Up wind_flex) (Up battery_flex) ;;
  flex_down <- sum5 (Down gas_fired_flex) (Down hydro_flex) (Down solar_flex)
                    (Down wind_flex) (Down battery_flex) ;;
  Ok (mk_flex flex_up flex_down None).

(** ** get_max_min_disturbance *)

Definition get_max_min_disturbance
  (system_flex : flex) (disturbance_curve : curve) (time : list Q)
  : result disturbance :=
  below <- nd_compare Qgt_bool (lower disturbance_curve) (Down system_flex) ;;
  idx_down <- np.argwhere0 below ;;
  above <- nd_compare Qlt_bool (upper disturbance_curve) (Up system_flex) ;;
  idx_up <- np.argwhere0 above ;;
  max_d <- np.getitem (upper disturbance_curve) idx_up ;;
  min_d <- np.getitem (lower disturbance_curve) idx_down ;;
  max_t <- np.getitem time idx_up ;;
  min_t <- np.getitem time idx_down ;;
  Ok (mk_disturbance max_d min_d max_t min_t).

(** ** The words of the specification *)

(** The envelope formulas of the specification, section 4.1. *)
Definition spec_up (a : asset) (t : Q) : Q :=
  Qmin (Qmax (Ramp_Up a * (t - Latency a)) 0) (Max_Output a - Output a).

Definition spec_down (a : asset) (t : Q) : Q :=
  Qmax (Qmin (- Ramp_Down a * (t - Latency a)) 0) (Min_Output a - Output a).

(** The rotating-mass relation of the specification, section 4.2, for an
    angular frequency [scale * f]: the kinetic energy [1/2 J w^2], the
    moment [J] that gives the inertia [K] at the current frequency, and the
    two margins of kinetic energy. *)
Definition kinetic (scale J f : Q) : Q := 1 / 2 * J * (scale * f) ^ 2.

Definition moment (scale : Q) (sys : system) : Q :=
  2 * inertia sys / (scale * freq sys) ^ 2.

Definition K_avail_down (scale : Q) (sys : system) : Q :=
  inertia sys - kinetic scale (moment scale sys) (freq_min sys).

Definition K_avail_up (scale : Q) (sys : system) : Q :=
  kinetic scale (moment scale sys) (freq_max sys) - inertia sys.

(** The system of the program's defaults: 50 MWs at 60 Hz, between 59 and
    61 Hz. *)
Definition default_system : system := mk_system 50 60 59 61.

(** Two arrays that agree index by index, as numbers. *)
Definition arr_eq : list Q -> list Q -> Prop := Forall2 Qeq.

(** Two scalar-or-array values of the same shape that agree as numbers. *)
Definition nd_eq (v w : ndval) : Prop :=
  match v, w with
  | Scalar x, Scalar y => x == y
  | Arr xs, Arr ys => arr_eq xs ys
  | _, _ => False
  end.

(** Two outcomes that agree: the same exception, or values that agree. *)
Definition res_eq {A : Type} (R : A -> A -> Prop) (r s : result A) : Prop :=
  match r, s with
  | Ok a, Ok b => R a b
  | Raise e, Raise e' => e = e'
  | _, _ => False
  end.

(** Two flexibility dictionaries with the same ramps. *)
Definition flex_eq (f g : flex) : Prop :=
  nd_eq (Up f) (Up g) /\ nd_eq (Down f) (Down g).

(** The aggregation of the specification over four envelopes: the sums of
    [flexibility_aggreagation] with one of its five terms left out. *)
Definition sum4 (a b c d : ndval) : result ndval :=
  ab <- nd_add a b ;;
  abc <- nd_add ab c ;;
  nd_add abc d.

Definition aggregation_of_four (f1 f2 f3 f4 : flex) : result flex :=
  flex_up <- sum4 (Up f1) (Up f2) (Up f3) (Up f4) ;;
  flex_down <- sum4 (Down f1) (Down f2) (Down f3) (Down f4) ;;
  Ok (mk_flex flex_up flex_down None).

(** A sum carried on from a partial outcome, term by term. *)
Definition add_to (r : result ndval) (v : ndval) : result ndval :=
  x <- r ;; nd_add x v.

Definition sum_from (r : result ndval) (vs : list ndval) : result ndval :=
  fold_left add_to vs r.

(** The envelope of an absent asset. *)
Definition zero_flex : flex := mk_flex (Scalar 0) (Scalar 0) (Some 0).

(** [P] holds at [j] and at no smaller index. *)
Definition first_index (P : nat -> Prop) (j : nat) : Prop :=
  P j /\ forall k, (k < j)%nat -> ~ P k.

(** The crossing conditions of the solver at index [k]. *)
Definition crosses_up (f : flex) (c : curve) (k : nat) : Prop :=
  exists u e, nth_error (upper c) k = Some u /\
              nd_nth (Up f) k = Some e /\ u < e.

Definition crosses_down (f : flex) (c : curve) (k : nat) : Prop :=
  exists l e, nth_error (lower c) k = Some l /\
              nd_nth (Down f) k = Some e /\ l > e.

(** A scalar, or an array of [n] entries. *)
Definition nd_fits (n : nat) (v : ndval) : Prop :=
  match v with
  | Scalar _ => True
  | Arr xs => length xs = n
  end.

(** The clamps of lines 21-23 and 26-28 at one time. *)
Definition up_at (a : asset) (t : Q) : Q :=
  let u := t * Ramp_Up a - Latency a * Ramp_Up a in
  let u := if Qlt_bool u 0 then 0 else u in
  if Qgt_bool u (Max_Output a - Output a) then Max_Output a - Output a else u.

Definition down_at (a : asset) (t : Q) : Q :=
  let d := t * - Ramp_Down a - Latency a * - Ramp_Down a in
  let d := if Qgt_bool d 0 then 0 else d in
  if Qlt_bool d (Min_Output a - Output a) then Min_Output a - Output a else d.

(** The calls that raise nothing: storage needs its ['Energy'] key and a
    time grid with [time[0]] and [time[1]]. *)
Definition callable (a : asset) (time : list Q) : Prop :=
  match Charge a with
  | None => True
  | Some _ => Energy a <> None /\ (2 <= length time)%nat
  end.

(** The gas-fired asset of the specification's scenario. *)
Definition gas_asset : asset := mk_asset 7 10 0 1 1 (3 # 2) None None.

(** The battery storage of the program's defaults, and one that is empty
    and idles in the middle of its range. *)
Definition battery_asset : asset :=
  mk_asset (- (1 # 2)) (1 # 2) (- (1 # 2)) (1 # 10) 50 50
           (Some 75) (Some 1000).

Definition empty_battery : asset :=
  mk_asset 0 (1 # 2) (- (1 # 2)) (1 # 10) 50 50 (Some 0) (Some 1000).

(** A storage of a tenth of a MWs, half full. *)
Definition small_battery : asset :=
  mk_asset 0 (1 # 2) (- (1 # 2)) (1 # 10) 50 50 (Some 50) (Some (1 # 10)).

(** An asset that breaks every rule of the data model at once. *)
Definition invalid_asset : asset :=
  mk_asset 11 10 0 (- (1)) (- (1)) 0 None None.

(** Every entry of [xs] has the sign of [s] (or is zero). *)
Definition signed (s : Q) (xs : list Q) : Prop :=
  forall x, In x xs -> 0 <= s * x.

(** A grid of three samples, a disturbance curve over it and two system
    envelopes: one that crosses the curve, with a tie at index 1 upwards,
    and one that never does. *)
Definition sample_time : list Q := [1; 2; 3].

Definition sample_curve : curve := mk_curve [- (5); - (3); - (1)] [5; 3; 1].

Definition crossing_flex : flex :=
  mk_flex (Arr [0; 3; 2]) (Arr [0; - (4); - (2)]) None.

Definition flat_flex : flex := mk_flex (Arr [0; 0; 0]) (Arr [0; 0; 0]) None.

(** The same asset dictionary without its storage keys. *)
Definition without_storage (a : asset) : asset :=
  mk_asset (Output a) (Max_Output a) (Min_Output a) (Latency a)
           (Ramp_Up a) (Ramp_Down a) None None.


Definition opt_add (o o' : option Q) : option Q :=
  match o, o' with
  | Some x, Some y => Some (x + y)
  | _, _ => None
  end.

(** An envelope over a grid of [n] samples: [Up] and [Down] are scalars or
    arrays of [n] entries. *)
Definition flex_fits (n : nat) (f : flex) : Prop :=
  nd_fits n (Up f) /\ nd_fits n (Down f).

(** The length of an array, none for a scalar; and an array whose length
    is not one, which broadcasting never stretches. *)
Definition nd_len (v : ndval) : option nat :=
  match v with
  | Scalar _ => None
  | Arr xs => Some (length xs)
  end.

Definition proper_array (v : ndval) : Prop :=
  match v with
  | Scalar _ => False
  | Arr xs => length xs <> 1%nat
  end.

(** The room of an asset above and below its output; an absent asset has
    none. *)
Definition headroom (a : option asset) : Q :=
  match a with
  | None => 0
  | Some a => Max_Output a - Output a
  end.

Definition footroom (a : option asset) : Q :=
  match a with
  | None => 0
  | Some a => Min_Output a - Output a
  end.

(** An asset that is absent, or whose call raises nothing and whose output
    lies between its bounds. *)
Definition usable (time : list Q) (a : option asset) : Prop :=
  match a with
  | None => True
  | Some a =>
      callable a time /\ Min_Output a <= Output a /\ Output a <= Max_Output a
  end.

(** The system envelope as the script computes it: the five calls for the
    assets, in its order, each for the asset or for [None] when its type is
    switched off, and their aggregation. *)
Definition system_flexibility
  (gas_fire_asset hydro_asset solar_asset wind_asset battery_asset
     : option asset) (time : list Q) : result flex :=
  gas_fired_flex <- get_asset_flexibility gas_fire_asset time ;;
  hydro_flex <- get_asset_flexibility hydro_asset time ;;
  solar_flex <- get_asset_flexibility solar_asset time ;;
  wind_flex <- get_asset_flexibility wind_asset time ;;
  battery_flex <- get_asset_flexibility battery_asset time ;;
  flexibility_aggreagation gas_fired_flex hydro_flex solar_flex wind_flex
                           battery_flex.

(** [np.linspace(start, stop, num)]: [num] samples [k * step + start] with
    [step = (stop - start) / (num - 1)], the last one set to [stop]
    itself. *)
Definition np_linspace (start stop : Q) (num : nat) : list Q :=
  let div := inject_Z (Z.of_nat (num - 1)) in
  let step := (stop - start) / div in
  map (fun k => if Nat.ltb 1 num && Nat.eqb k (num - 1) then stop
                else inject_Z (Z.of_nat k) * step + start)
      (seq 0 num).

(** The time grid of the script, [np.linspace(0.1, time_max, 1000)]. *)
Definition script_time (time_max : Q) : list Q :=
  np_linspace (1 # 10) time_max 1000.

(** A time grid that never runs backwards. *)
Definition ascending (time : list Q) : Prop :=
  forall i k t t', (i <= k)%nat ->
    nth_error time i = Some t -> nth_error time k = Some t' -> t <= t'.

(** [f'] offers at least what [f] offers at every index of a grid of [n]
    samples: more upwards, and more downwards. *)
Definition at_least_as_flexible (n : nat) (f f' : flex) : Prop :=
  forall k, (k < n)%nat ->
    (forall e, nd_nth (Up f) k = Some e ->
               exists e', nd_nth (Up f') k = Some e' /\ e <= e') /\
    (forall e, nd_nth (Down f) k = Some e ->
               exists e', nd_nth (Down f') k = Some e' /\ e' <= e).

(** The asset [b] stands where [a] stood, or where no asset stood. *)
Definition switched_on (a b : option asset) : Prop := a = None \/ a = b.

(** ** Basic facts *)

Lemma Qlt_bool_iff (x y : Q) : Qlt_bool x y = true <-> x < y.
Proof. unfold Qlt_bool, Qlt. apply Z.ltb_lt. Qed.

Lemma Qlt_bool_false_iff (x y : Q) : Qlt_bool x y = false <-> y <= x.
Proof. unfold Qlt_bool, Qle. apply Z.ltb_ge. Qed.

Lemma Qlt_bool_reflect (x y : Q) : reflect (x < y) (Qlt_bool x y).
Proof. apply iff_reflect. symmetry. apply Qlt_bool_iff. Qed.

Lemma where_map (f : Q -> bool) (x : Q) (ys : list Q) :
  np.where_ (map f ys) x ys = map (fun y => if f y then x else y) ys.
Proof.
  induction ys as [|y ys IH]; simpl; [reflexivity|].
  now rewrite IH.
Qed.

Lemma where_length (cond : list bool) (x : Q) (ys : list Q) :
  length cond = length ys -> length (np.where_ cond x ys) = length ys.
Proof.
  revert ys. induction cond as [|c cond IH]; intros [|y ys]; simpl;
    intros H; try reflexivity; try discriminate.
  f_equal. apply IH. now injection H.
Qed.

Lemma where_nth (cond : list bool) (x : Q) (ys : list Q) (k : nat) c y :
  nth_error cond k = Some c -> nth_error ys k = Some y ->
  nth_error (np.where_ cond x ys) k = Some (if c then x else y).
Proof.
  revert ys k. induction cond as [|c0 cond IH]; intros [|y0 ys] [|k]; simpl;
    try discriminate.
  - intros [= ->] [= ->]. reflexivity.
  - apply IH.
Qed.

Lemma ramp_up_map (a : asset) (time : list Q) :
  ramp_up a time = map (up_at a) time.
Proof.
  unfold ramp_up. rewrite !where_map, !map_map. reflexivity.
Qed.

Lemma ramp_down_map (a : asset) (time : list Q) :
  ramp_down a time = map (down_at a) time.
Proof.
  unfold ramp_down. rewrite !where_map, !map_map. reflexivity.
Qed.

Lemma up_at_spec (a : asset) (t : Q) : up_at a t == spec_up a t.
Proof.
  unfold up_at, spec_up, Qgt_bool.
  set (H := Max_Output a - Output a).
  destruct (Q.max_spec (Ramp_Up a * (t - Latency a)) 0) as [[H1 H2]|[H1 H2]];
  destruct (Q.min_spec (Qmax (Ramp_Up a * (t - Latency a)) 0) H)
    as [[H3 H4]|[H3 H4]];
  rewrite H4; rewrite H2 in H3;
  destruct (Qlt_bool_reflect (t * Ramp_Up a - Latency a * Ramp_Up a) 0);
  match goal with
  | |- context [Qlt_bool ?x ?y] => destruct (Qlt_bool_reflect x y)
  end; lra.
Qed.

Lemma down_at_spec (a : asset) (t : Q) : down_at a t == spec_down a t.
Proof.
  unfold down_at, spec_down, Qgt_bool.
  set (F := Min_Output a - Output a).
  destruct (Q.min_spec (- Ramp_Down a * (t - Latency a)) 0)
    as [[H1 H2]|[H1 H2]];
  destruct (Q.max_spec (Qmin (- Ramp_Down a * (t - Latency a)) 0) F)
    as [[H3 H4]|[H3 H4]];
  rewrite H4; rewrite H2 in H3;
  destruct (Qlt_bool_reflect 0
              (t * - Ramp_Down a - Latency a * - Ramp_Down a));
  match goal with
  | |- context [Qlt_bool ?x F] => destruct (Qlt_bool_reflect x F)
  end; lra.
Qed.

Lemma up_at_le (a : asset) (t : Q) : up_at a t <= Max_Output a - Output a.
Proof.
  unfold up_at, Qgt_bool.
  match goal with
  | |- context [Qlt_bool ?x ?y] =>
      destruct (Qlt_bool x y) eqn:E;
      [apply Qle_refl | now apply Qlt_bool_false_iff in E]
  end.
Qed.

Lemma down_at_ge (a : asset) (t : Q) : Min_Output a - Output a <= down_at a t.
Proof.
  unfold down_at.
  match goal with
  | |- context [Qlt_bool ?x ?y] =>
      destruct (Qlt_bool x y) eqn:E;
      [apply Qle_refl | now apply Qlt_bool_false_iff in E]
  end.
Qed.

Lemma up_at_nonneg (a : asset) (t : Q) :
  Output a <= Max_Output a -> 0 <= up_at a t.
Proof.
  intros H. unfold up_at, Qgt_bool.
  destruct (Qlt_bool_reflect (t * Ramp_Up a - Latency a * Ramp_Up a) 0);
  match goal with
  | |- context [Qlt_bool ?x ?y] => destruct (Qlt_bool_reflect x y)
  end; lra.
Qed.

Lemma down_at_nonpos (a : asset) (t : Q) :
  Min_Output a <= Output a -> down_at a t <= 0.
Proof.
  intros H. unfold down_at, Qgt_bool.
  destruct (Qlt_bool_reflect 0
              (t * - Ramp_Down a - Latency a * - Ramp_Down a));
  match goal with
  | |- context [Qlt_bool ?x ?y] => destruct (Qlt_bool_reflect x y)
  end; lra.
Qed.

Lemma where_In (cond : list bool) (x : Q) (ys : list Q) (y : Q) :
  In y (np.where_ cond x ys) -> y = x \/ In y ys.
Proof.
  revert ys. induction cond as [|c cond IH]; intros [|y0 ys]; simpl;
    try contradiction.
  intros [H|H].
  - destruct c; auto.
  - destruct (IH _ H); auto.
Qed.

Lemma cumsum_from_length (acc : Q) (xs : list Q) :
  length (np.cumsum_from acc xs) = length xs.
Proof.
  revert acc. induction xs as [|x xs IH]; intros acc; simpl; auto.
Qed.

Lemma cumsum_length (xs : list Q) : length (np.cumsum xs) = length xs.
Proof.
  destruct xs; simpl; [reflexivity|]. now rewrite cumsum_from_length.
Qed.

Lemma limit_up_length (dt e : Q) (up : list Q) :
  length (limit_up dt e up) = length up.
Proof.
  unfold limit_up. apply where_length.
  now rewrite length_map, cumsum_length.
Qed.

Lemma limit_down_length (dt e : Q) (down : list Q) :
  length (limit_down dt e down) = length down.
Proof.
  unfold limit_down. apply where_length.
  now rewrite length_map, cumsum_length.
Qed.

(** What the call returns for an asset that has no ['Charge'] key. *)
Lemma get_asset_flexibility_plain (a : asset) (time : list Q) :
  Charge a = None ->
  get_asset_flexibility (Some a) time =
    Ok (mk_flex (Arr (map (up_at a) time)) (Arr (map (down_at a) time))
                (Some (Output a))).
Proof.
  intros H. simpl. rewrite H, ramp_up_map, ramp_down_map. reflexivity.
Qed.

(** What the call returns for a storage asset on a grid of two samples or
    more. *)
Lemma get_asset_flexibility_storage
  (a : asset) (charge energy t0 t1 : Q) (rest : list Q) :
  Charge a = Some charge -> Energy a = Some energy ->
  let time := t0 :: t1 :: rest in
  let dt := t1 - t0 in
  let energy_to_empty := charge * energy / 100 in
  get_asset_flexibility (Some a) time =
    Ok (mk_flex
          (Arr (limit_up dt energy_to_empty (map (up_at a) time)))
          (Arr (limit_down dt (energy - energy_to_empty)
                           (map (down_at a) time)))
          (Some (Output a))).
Proof.
  intros Hc He. cbv zeta. unfold get_asset_flexibility.
  rewrite Hc, He, ramp_up_map, ramp_down_map. reflexivity.
Qed.

(** A callable call returns arrays as long as the time grid, each entry
    zero or the clamped ramp at that time. *)
Lemma get_asset_flexibility_callable (a : asset) (time : list Q) :
  callable a time ->
  exists ups downs,
    get_asset_flexibility (Some a) time =
      Ok (mk_flex (Arr ups) (Arr downs) (Some (Output a))) /\
    length ups = length time /\ length downs = length time /\
    (forall u, In u ups -> u = 0 \/ exists t, In t time /\ u = up_at a t) /\
    (forall d, In d downs ->
               d = 0 \/ exists t, In t time /\ d = down_at a t).
Proof.
  unfold callable. intros Hcall.
  destruct (Charge a) as [charge|] eqn:Hc.
  - destruct Hcall as [He Hlen].
    destruct (Energy a) as [energy|] eqn:Hen; [|congruence].
    destruct time as [|t0 [|t1 rest]]; simpl in Hlen; try lia.
    rewrite (get_asset_flexibility_storage a charge energy t0 t1 rest Hc Hen).
    eexists. eexists. split; [reflexivity|].
    rewrite limit_up_length, limit_down_length, !length_map.
    repeat split.
    + intros u Hu. apply where_In in Hu. destruct Hu as [->|Hu]; auto.
      right. apply in_map_iff in Hu. destruct Hu as (t & <- & Ht). eauto.
    + intros d Hd. apply where_In in Hd. destruct Hd as [->|Hd]; auto.
      right. apply in_map_iff in Hd. destruct Hd as (t & <- & Ht). eauto.
  - rewrite (get_asset_flexibility_plain a time Hc).
    eexists. eexists. split; [reflexivity|].
    rewrite !length_map. repeat split.
    + intros u Hu. right. apply in_map_iff in Hu.
      destruct Hu as (t & <- & Ht). eauto.
    + intros d Hd. right. apply in_map_iff in Hd.
      destruct Hd as (t & <- & Ht). eauto.
Qed.

(** ** The envelope of an asset *)

(** C2.  For an asset without energy fields the call returns, at every
    time [t] of the grid, [up = min (max (rampUp * (t - latency)) 0)
    (maxOutput - output)] and [down = max (min (- rampDown * (t - latency))
    0) (minOutput - output)], and hands the asset's output through; for the
    gas-fired asset of the scenario on the grid [0.5, 2, 3] the up values
    are 0, 1 and 2. *)
Theorem envelope_formula (a : asset) (time : list Q)
  (Hplain : Charge a = None) :
  (exists ups downs,
     get_asset_flexibility (Some a) time =
       Ok (mk_flex (Arr ups) (Arr downs) (Some (Output a))) /\
     length ups = length time /\ length downs = length time /\
     forall k t, nth_error time k = Some t ->
       exists u d, nth_error ups k = Some u /\ nth_error downs k = Some d /\
                   u == spec_up a t /\ d == spec_down a t) /\
  (exists u0 u1 u2 downs,
     get_asset_flexibility (Some gas_asset) [1 # 2; 2; 3] =
       Ok (mk_flex (Arr [u0; u1; u2]) downs (Some 7)) /\
     u0 == 0 /\ u1 == 1 /\ u2 == 2).
Proof.
  split.
  - exists (map (up_at a) time), (map (down_at a) time).
    split; [now apply get_asset_flexibility_plain|].
    rewrite !length_map. repeat split.
    intros k t Hk. exists (up_at a t), (down_at a t).
    rewrite !nth_error_map, Hk. simpl.
    repeat split; [apply up_at_spec | apply down_at_spec].
  - do 4 eexists. split; [vm_compute; reflexivity|].
    repeat split; reflexivity.
Qed.

Lemma envelope_formula_witness :
  Charge gas_asset = None /\
  exists ups downs,
    get_asset_flexibility (Some gas_asset) [1 # 2; 2; 3] =
      Ok (mk_flex (Arr ups) (Arr downs) (Some (Output gas_asset))) /\
    length ups = 3%nat /\ length downs = 3%nat.
Proof.
  split; [reflexivity|].
  destruct (proj1 (envelope_formula gas_asset [1 # 2; 2; 3] eq_refl))
    as (ups & downs & H & Hu & Hd & _).
  exists ups, downs. auto.
Defined.

(** C7.  For an asset with [minOutput <= output <= maxOutput], at every
    index [output + up <= maxOutput] and [output + down >= minOutput], the
    storage assets after their energy limit included. *)
Theorem bound_preservation (a : asset) (time : list Q)
  (Hlo : Min_Output a <= Output a) (Hhi : Output a <= Max_Output a)
  (Hcall : callable a time) :
  exists ups downs,
    get_asset_flexibility (Some a) time =
      Ok (mk_flex (Arr ups) (Arr downs) (Some (Output a))) /\
    length ups = length time /\ length downs = length time /\
    (forall u, In u ups -> Output a + u <= Max_Output a) /\
    (forall d, In d downs -> Min_Output a <= Output a + d).
Proof.
  destruct (get_asset_flexibility_callable a time Hcall)
    as (ups & downs & Hret & Hlu & Hld & Hups & Hdowns).
  exists ups, downs. repeat split; auto.
  - intros u Hu. destruct (Hups u Hu) as [->|(t & _ & ->)]; [lra|].
    pose proof (up_at_le a t). lra.
  - intros d Hd. destruct (Hdowns d Hd) as [->|(t & _ & ->)]; [lra|].
    pose proof (down_at_ge a t). lra.
Qed.

(** ** The energy limit of storage *)

Lemma cumsum_nth_exists (xs : list Q) (k : nat) (x : Q) :
  nth_error xs k = Some x -> exists c, nth_error (np.cumsum xs) k = Some c.
Proof.
  intros H. destruct (nth_error (np.cumsum xs) k) as [c|] eqn:E; eauto.
  apply nth_error_None in E. rewrite cumsum_length in E.
  assert (k < length xs)%nat by (apply nth_error_Some; congruence). lia.
Qed.

Lemma limit_up_nth (dt e : Q) (up : list Q) (k : nat) (c u : Q) :
  nth_error (np.cumsum up) k = Some c -> nth_error up k = Some u ->
  nth_error (limit_up dt e up) k =
    Some (if Qgt_bool (c * dt) e then 0 else u).
Proof.
  intros Hc Hu. unfold limit_up.
  apply where_nth; [|exact Hu]. now rewrite nth_error_map, Hc.
Qed.

Lemma limit_down_nth (dt e : Q) (down : list Q) (k : nat) (c d : Q) :
  nth_error (np.cumsum down) k = Some c -> nth_error down k = Some d ->
  nth_error (limit_down dt e down) k =
    Some (if Qgt_bool (- c * dt) e then 0 else d).
Proof.
  intros Hc Hd. unfold limit_down.
  apply where_nth; [|exact Hd]. now rewrite nth_error_map, Hc.
Qed.

(** Running sums of numbers of one sign [s] move in one direction. *)
Section RunningSums.

Variable s : Q.

Lemma signed_tail (x : Q) (xs : list Q) : signed s (x :: xs) -> signed s xs.
Proof. intros H y Hy. apply H. now right. Qed.

Lemma cumsum_from_ge (xs : list Q) :
  signed s xs -> forall acc k c,
  nth_error (np.cumsum_from acc xs) k = Some c -> s * acc <= s * c.
Proof.
  induction xs as [|x xs IH]; intros Hs acc k c; simpl.
  - destruct k; discriminate.
  - assert (Hx : 0 <= s * x) by (apply Hs; now left).
    destruct k as [|k]; simpl.
    + intros [= <-]. lra.
    + intros H. apply IH in H; [lra | exact (signed_tail _ _ Hs)].
Qed.

Lemma cumsum_from_mono (xs : list Q) :
  signed s xs -> forall acc i j ci cj, (i <= j)%nat ->
  nth_error (np.cumsum_from acc xs) i = Some ci ->
  nth_error (np.cumsum_from acc xs) j = Some cj -> s * ci <= s * cj.
Proof.
  induction xs as [|x xs IH]; intros Hs acc i j ci cj Hij; simpl.
  - destruct i; discriminate.
  - destruct i as [|i], j as [|j]; simpl; try lia.
    + intros [= <-] [= <-]. lra.
    + intros [= <-] Hj.
      exact (cumsum_from_ge xs (signed_tail _ _ Hs) _ _ _ Hj).
    + apply IH; [exact (signed_tail _ _ Hs) | lia].
Qed.

Lemma cumsum_mono (xs : list Q) :
  signed s xs -> forall i j ci cj, (i <= j)%nat ->
  nth_error (np.cumsum xs) i = Some ci ->
  nth_error (np.cumsum xs) j = Some cj -> s * ci <= s * cj.
Proof.
  destruct xs as [|x xs]; intros Hs i j ci cj Hij; simpl.
  - destruct i; discriminate.
  - destruct i as [|i], j as [|j]; simpl; try lia.
    + intros [= <-] [= <-]. lra.
    + intros [= <-] Hj.
      exact (cumsum_from_ge xs (signed_tail _ _ Hs) _ _ _ Hj).
    + apply cumsum_from_mono; [exact (signed_tail _ _ Hs) | lia].
Qed.

(** A running sum is at least, in the direction of [s], its last term. *)
Lemma cumsum_from_last (xs : list Q) :
  signed s xs -> forall acc k c x, 0 <= s * acc ->
  nth_error (np.cumsum_from acc xs) k = Some c ->
  nth_error xs k = Some x -> s * x <= s * c.
Proof.
  induction xs as [|x0 xs IH]; intros Hs acc k c x Hacc; simpl.
  - destruct k; discriminate.
  - assert (Hx : 0 <= s * x0) by (apply Hs; now left).
    destruct k as [|k]; simpl.
    + intros [= <-] [= <-]. lra.
    + apply IH; [exact (signed_tail _ _ Hs) | lra].
Qed.

Lemma cumsum_last (xs : list Q) :
  signed s xs -> forall k c x,
  nth_error (np.cumsum xs) k = Some c ->
  nth_error xs k = Some x -> s * x <= s * c.
Proof.
  destruct xs as [|x0 xs]; intros Hs k c x; simpl.
  - destruct k; discriminate.
  - assert (Hx : 0 <= s * x0) by (apply Hs; now left).
    destruct k as [|k]; simpl.
    + intros [= <-] [= <-]. lra.
    + apply cumsum_from_last; [exact (signed_tail _ _ Hs) | lra].
Qed.

End RunningSums.

Lemma Qgt_bool_true (x y : Q) : x > y -> Qgt_bool x y = true.
Proof. intros H. now apply Qlt_bool_iff. Qed.

Lemma Qgt_bool_false (x y : Q) : ~ x > y -> Qgt_bool x y = false.
Proof.
  intros H. unfold Qgt_bool. destruct (Qlt_bool_reflect y x); tauto.
Qed.

(** Once the running sum of [up] times [dt] is over the budget it stays
    over it, on a grid that does not run backwards. *)
Lemma over_budget_up_stays (dt e : Q) (up : list Q) (i j : nat) (ci cj : Q) :
  0 <= dt -> signed 1 up -> (i <= j)%nat ->
  nth_error (np.cumsum up) i = Some ci ->
  nth_error (np.cumsum up) j = Some cj ->
  ci * dt > e -> cj * dt > e.
Proof.
  intros Hdt Hs Hij Hi Hj Hover.
  pose proof (cumsum_mono 1 up Hs i j ci cj Hij Hi Hj) as Hm.
  assert (ci * dt <= cj * dt) by (apply Qmult_le_compat_r; lra).
  lra.
Qed.

Lemma over_budget_down_stays
  (dt e : Q) (down : list Q) (i j : nat) (ci cj : Q) :
  0 <= dt -> signed (- (1)) down -> (i <= j)%nat ->
  nth_error (np.cumsum down) i = Some ci ->
  nth_error (np.cumsum down) j = Some cj ->
  - ci * dt > e -> - cj * dt > e.
Proof.
  intros Hdt Hs Hij Hi Hj Hover.
  pose proof (cumsum_mono (- (1)) down Hs i j ci cj Hij Hi Hj) as Hm.
  assert (- ci * dt <= - cj * dt) by (apply Qmult_le_compat_r; lra).
  lra.
Qed.

Lemma signed_nonneg (xs : list Q) :
  (forall x, In x xs -> 0 <= x) -> signed 1 xs.
Proof. intros H x Hx. apply H in Hx. lra. Qed.

Lemma signed_nonpos (xs : list Q) :
  (forall x, In x xs -> x <= 0) -> signed (- (1)) xs.
Proof. intros H x Hx. apply H in Hx. lra. Qed.

Lemma nth_error_in_range {A : Type} (xs : list A) (k : nat) :
  (k < length xs)%nat -> exists x, nth_error xs k = Some x.
Proof.
  intros H. destruct (nth_error xs k) eqn:E; eauto.
  apply nth_error_None in E. lia.
Qed.

(** C10.  On a time grid that does not run backwards, for a storage asset
    whose ramp up before the limit is nonnegative at every index, the
    indices at which the running sum of that ramp times [dt] is over
    [energy_to_empty] are closed upwards, [up] is zero at each of them and
    keeps its value at every other index; the running sum is the one of the
    values before the limit.  The same holds for [down], nonpositive before
    the limit, against [energy_to_full]. *)
Theorem energy_limit_zeroes_a_suffix
  (a : asset) (charge energy t0 t1 : Q) (rest : list Q)
  (Hc : Charge a = Some charge) (He : Energy a = Some energy)
  (Hgrid : t0 <= t1) :
  let time := t0 :: t1 :: rest in
  let dt := t1 - t0 in
  let energy_to_empty := charge * energy / 100 in
  let energy_to_full := energy - energy_to_empty in
  let pre_up := ramp_up a time in
  let pre_down := ramp_down a time in
  exists ups downs,
    get_asset_flexibility (Some a) time =
      Ok (mk_flex (Arr ups) (Arr downs) (Some (Output a))) /\
    ((forall u, In u pre_up -> 0 <= u) ->
     forall i j ci, (i <= j < length time)%nat ->
       nth_error (np.cumsum pre_up) i = Some ci ->
       ci * dt > energy_to_empty ->
       nth_error ups j = Some 0 /\
       exists cj, nth_error (np.cumsum pre_up) j = Some cj /\
                  cj * dt > energy_to_empty) /\
    (forall k c u,
       nth_error (np.cumsum pre_up) k = Some c ->
       nth_error pre_up k = Some u ->
       ~ c * dt > energy_to_empty -> nth_error ups k = Some u) /\
    ((forall d, In d pre_down -> d <= 0) ->
     forall i j ci, (i <= j < length time)%nat ->
       nth_error (np.cumsum pre_down) i = Some ci ->
       - ci * dt > energy_to_full ->
       nth_error downs j = Some 0 /\
       exists cj, nth_error (np.cumsum pre_down) j = Some cj /\
                  - cj * dt > energy_to_full) /\
    (forall k c d,
       nth_error (np.cumsum pre_down) k = Some c ->
       nth_error pre_down k = Some d ->
       ~ - c * dt > energy_to_full -> nth_error downs k = Some d).
Proof.
  intros time dt energy_to_empty energy_to_full pre_up pre_down.
  assert (Hdt : 0 <= dt) by (unfold dt; lra).
  eexists. eexists. split.
  { apply (get_asset_flexibility_storage a charge energy t0 t1 rest Hc He). }
  fold time dt energy_to_empty energy_to_full.
  rewrite <- ramp_up_map, <- ramp_down_map. fold pre_up pre_down.
  assert (Hlu : length pre_up = length time)
    by (unfold pre_up; now rewrite ramp_up_map, length_map).
  assert (Hld : length pre_down = length time)
    by (unfold pre_down; now rewrite ramp_down_map, length_map).
  split; [|split; [|split]].
  - intros Hsign i j ci [Hij Hj] Hci Hover. rewrite <- Hlu in Hj.
    destruct (nth_error_in_range _ _ Hj) as [u Hu].
    destruct (cumsum_nth_exists _ _ _ Hu) as [cj Hcj].
    assert (Hstay : cj * dt > energy_to_empty)
      by exact (over_budget_up_stays dt energy_to_empty pre_up i j ci cj Hdt
                  (signed_nonneg _ Hsign) Hij Hci Hcj Hover).
    split; [|eauto].
    rewrite (limit_up_nth dt energy_to_empty pre_up j cj u Hcj Hu).
    now rewrite Qgt_bool_true.
  - intros k c u Hck Hu Hnot.
    rewrite (limit_up_nth dt energy_to_empty pre_up k c u Hck Hu).
    now rewrite Qgt_bool_false.
  - intros Hsign i j ci [Hij Hj] Hci Hover. rewrite <- Hld in Hj.
    destruct (nth_error_in_range _ _ Hj) as [d Hd].
    destruct (cumsum_nth_exists _ _ _ Hd) as [cj Hcj].
    assert (Hstay : - cj * dt > energy_to_full)
      by exact (over_budget_down_stays dt energy_to_full pre_down i j ci cj
                  Hdt (signed_nonpos _ Hsign) Hij Hci Hcj Hover).
    split; [|eauto].
    rewrite (limit_down_nth dt energy_to_full pre_down j cj d Hcj Hd).
    now rewrite Qgt_bool_true.
  - intros k c d Hck Hd Hnot.
    rewrite (limit_down_nth dt energy_to_full pre_down k c d Hck Hd).
    now rewrite Qgt_bool_false.
Qed.

Lemma energy_limit_zeroes_a_suffix_witness :
  Charge small_battery = Some 50 /\
  Energy small_battery = Some (1 # 10) /\
  (1 # 10) <= (2 # 10) /\
  exists ups downs,
    get_asset_flexibility (Some small_battery)
                          [1 # 10; 2 # 10; 3 # 10; 4 # 10] =
      Ok (mk_flex (Arr ups) (Arr downs) (Some 0)) /\
    nth_error ups 3 = Some 0.
Proof.
  assert (Hgrid : (1 # 10) <= (2 # 10)) by (vm_compute; discriminate).
  split; [reflexivity|]. split; [reflexivity|]. split; [exact Hgrid|].
  destruct (energy_limit_zeroes_a_suffix small_battery 50 (1 # 10)
              (1 # 10) (2 # 10) [3 # 10; 4 # 10] eq_refl eq_refl Hgrid)
    as (ups & downs & Hret & Hup & _).
  exists ups, downs. split; [exact Hret|].
  refine (proj1 (Hup _ 2%nat 3%nat _ _ _ _)).
  - intros u Hu. vm_compute in Hu.
    repeat (destruct Hu as [<-|Hu]; [vm_compute; discriminate|]).
    contradiction.
  - simpl. lia.
  - vm_compute. reflexivity.
  - vm_compute. reflexivity.
Defined.

Lemma bound_preservation_witness :
  Min_Output battery_asset <= Output battery_asset /\
  Output battery_asset <= Max_Output battery_asset /\
  callable battery_asset [1 # 10; 2 # 10; 3 # 10] /\
  exists ups downs,
    get_asset_flexibility (Some battery_asset) [1 # 10; 2 # 10; 3 # 10] =
      Ok (mk_flex (Arr ups) (Arr downs) (Some (Output battery_asset))) /\
    (forall u, In u ups ->
               Output battery_asset + u <= Max_Output battery_asset) /\
    (forall d, In d downs ->
               Min_Output battery_asset <= Output battery_asset + d).
Proof.
  assert (Hlo : Min_Output battery_asset <= Output battery_asset)
    by (vm_compute; discriminate).
  assert (Hhi : Output battery_asset <= Max_Output battery_asset)
    by (vm_compute; discriminate).
  assert (Hcall : callable battery_asset [1 # 10; 2 # 10; 3 # 10])
    by (unfold callable; simpl; split; [discriminate | lia]).
  split; [exact Hlo|]. split; [exact Hhi|]. split; [exact Hcall|].
  destruct (bound_preservation battery_asset [1 # 10; 2 # 10; 3 # 10]
              Hlo Hhi Hcall) as (ups & downs & Hret & _ & _ & Hu & Hd).
  exists ups, downs. auto.
Defined.

(** C4, the statement of the specification fails: an empty storage idling
    in the middle of its range keeps its ramp down of half a MW at the
    indices 1 and 2, although the cumulative discharge there is over the
    zero budget, whether it is read as the running sum of [- down] or of
    [up]. *)
Lemma zero_charge_down_not_zeroed :
  let time := [1 # 10; 2 # 10; 3 # 10] in
  let dt := (2 # 10) - (1 # 10) in
  Charge empty_battery = Some 0 /\
  exists ups d0 d1 d2,
    get_asset_flexibility (Some empty_battery) time =
      Ok (mk_flex ups (Arr [d0; d1; d2]) (Some 0)) /\
    (exists c, nth_error (np.cumsum (ramp_down empty_battery time)) 1
               = Some c /\ - c * dt > 0) /\
    (exists c, nth_error (np.cumsum (ramp_up empty_battery time)) 1
               = Some c /\ c * dt > 0) /\
    ~ d1 == 0 /\ ~ d2 == 0.
Proof.
  cbv zeta. split; [reflexivity|].
  do 4 eexists. split; [vm_compute; reflexivity|].
  split; [eexists; split; [vm_compute; reflexivity | vm_compute; reflexivity]|].
  split; [eexists; split; [vm_compute; reflexivity | vm_compute; reflexivity]|].
  split; vm_compute; discriminate.
Qed.

(** C4, amended.  For a storage asset with a charge of zero it is [up]
    that is tested against the zero budget [energy_to_empty]: [up] is zero
    at every index at which the running sum of the ramp up times [dt] is
    positive and keeps its value elsewhere, so that on an increasing grid
    and with [output <= maxOutput] it is zero everywhere.  [down] is tested
    against [energy_to_full], the whole capacity: it is zero at the indices
    at which the running sum of [- down] times [dt] is over the capacity
    and keeps its value elsewhere. *)
Theorem zero_charge_limits_up
  (a : asset) (charge energy t0 t1 : Q) (rest : list Q)
  (Hc : Charge a = Some charge) (Hzero : charge == 0)
  (He : Energy a = Some energy) :
  let time := t0 :: t1 :: rest in
  let dt := t1 - t0 in
  let pre_up := ramp_up a time in
  let pre_down := ramp_down a time in
  exists ups downs,
    get_asset_flexibility (Some a) time =
      Ok (mk_flex (Arr ups) (Arr downs) (Some (Output a))) /\
    (forall k c u,
       nth_error (np.cumsum pre_up) k = Some c ->
       nth_error pre_up k = Some u ->
       (c * dt > 0 -> nth_error ups k = Some 0) /\
       (~ c * dt > 0 -> nth_error ups k = Some u)) /\
    (t0 < t1 -> Output a <= Max_Output a -> forall u, In u ups -> u == 0) /\
    (forall k c d,
       nth_error (np.cumsum pre_down) k = Some c ->
       nth_error pre_down k = Some d ->
       (- c * dt > energy -> nth_error downs k = Some 0) /\
       (~ - c * dt > energy -> nth_error downs k = Some d)).
Proof.
  intros time dt pre_up pre_down.
  set (energy_to_empty := charge * energy / 100).
  assert (Hempty : energy_to_empty == 0)
    by (unfold energy_to_empty; rewrite Hzero; field).
  eexists. eexists. split.
  { apply (get_asset_flexibility_storage a charge energy t0 t1 rest Hc He). }
  fold time dt energy_to_empty.
  rewrite <- ramp_up_map, <- ramp_down_map. fold pre_up pre_down.
  assert (Hups : forall k c u,
             nth_error (np.cumsum pre_up) k = Some c ->
             nth_error pre_up k = Some u ->
             (c * dt > 0 -> nth_error (limit_up dt energy_to_empty pre_up) k
                            = Some 0) /\
             (~ c * dt > 0 -> nth_error (limit_up dt energy_to_empty pre_up) k
                              = Some u)).
  { intros k c u Hck Hu.
    rewrite (limit_up_nth dt energy_to_empty pre_up k c u Hck Hu).
    split; intros H.
    - rewrite Qgt_bool_true; [reflexivity | lra].
    - rewrite Qgt_bool_false; [reflexivity | lra]. }
  split; [exact Hups|]. split.
  - intros Hgrid Hhi u Hu.
    apply In_nth_error in Hu. destruct Hu as [k Hk].
    assert (Hlen : (k < length pre_up)%nat).
    { rewrite <- (limit_up_length dt energy_to_empty).
      apply nth_error_Some. congruence. }
    destruct (nth_error_in_range _ _ Hlen) as [v Hv].
    destruct (cumsum_nth_exists _ _ _ Hv) as [c Hck].
    assert (Hsign : signed 1 pre_up).
    { apply signed_nonneg. unfold pre_up. rewrite ramp_up_map.
      intros x Hx. apply in_map_iff in Hx. destruct Hx as (t & <- & _).
      now apply up_at_nonneg. }
    pose proof (cumsum_last 1 pre_up Hsign k c v Hck Hv) as Hlast.
    assert (Hv0 : 0 <= 1 * v) by (apply Hsign; eapply nth_error_In; eauto).
    destruct (Hups k c v Hck Hv) as [Hover Hunder].
    destruct (Qlt_le_dec 0 (c * dt)) as [Hpos|Hnon].
    + rewrite (Hover Hpos) in Hk. injection Hk as <-. reflexivity.
    + rewrite Hunder in Hk by lra. injection Hk as <-.
      assert (Hd : 0 < dt) by (unfold dt; lra).
      assert (c <= 0) by nra. lra.
  - intros k c d Hck Hd.
    rewrite (limit_down_nth dt (energy - energy_to_empty) pre_down k c d
               Hck Hd).
    split; intros H.
    + rewrite Qgt_bool_true; [reflexivity | lra].
    + rewrite Qgt_bool_false; [reflexivity | lra].
Qed.

Lemma zero_charge_limits_up_witness :
  Charge empty_battery = Some 0 /\ 0 == 0 /\
  Energy empty_battery = Some 1000 /\
  exists ups downs,
    get_asset_flexibility (Some empty_battery) [1 # 10; 2 # 10; 3 # 10] =
      Ok (mk_flex (Arr ups) (Arr downs) (Some 0)) /\
    forall u, In u ups -> u == 0.
Proof.
  split; [reflexivity|]. split; [reflexivity|]. split; [reflexivity|].
  destruct (zero_charge_limits_up empty_battery 0 1000 (1 # 10) (2 # 10)
              [3 # 10] eq_refl (Qeq_refl 0) eq_refl)
    as (ups & downs & Hret & _ & Hall & _).
  exists ups, downs. split; [exact Hret|].
  apply Hall; vm_compute; [reflexivity | discriminate].
Defined.

(** ** Validation *)

(** C9, the statement of the specification fails: an asset with a negative
    ramp up, a ramp down of zero, a negative latency and an output above
    its maximum is not rejected; the call returns an envelope. *)
Lemma invalid_asset_not_rejected :
  (Ramp_Up invalid_asset <= 0 /\ Ramp_Down invalid_asset <= 0 /\
   Latency invalid_asset < 0 /\
   Max_Output invalid_asset < Output invalid_asset) /\
  get_asset_flexibility (Some invalid_asset) [1; 2] =
    Ok (mk_flex (Arr [- (1); - (1)]) (Arr [0; 0]) (Some 11)) /\
  ~ exists e, get_asset_flexibility (Some invalid_asset) [1; 2] = Raise e.
Proof.
  split; [|split].
  - repeat split; vm_compute; try reflexivity; discriminate.
  - vm_compute. reflexivity.
  - intros [e He]. vm_compute in He. discriminate.
Qed.

(** C9, amended.  The call validates nothing: whether it returns an
    envelope depends on the presence of the energy keys and on the length
    of the time grid only, never on the ramp rates, the latency or the
    place of the output between its bounds.  It returns one exactly when
    the asset has no ['Charge'] key, or has ['Energy'] too and the grid has
    two samples; it raises [KeyError] or [IndexError] otherwise. *)
Theorem no_validation (a : asset) (time : list Q) :
  (callable a time <->
   exists ups downs,
     get_asset_flexibility (Some a) time =
       Ok (mk_flex (Arr ups) (Arr downs) (Some (Output a))) /\
     length ups = length time /\ length downs = length time) /\
  (forall e, get_asset_flexibility (Some a) time = Raise e ->
             e = KeyError \/ e = IndexError).
Proof.
  split; [split|].
  - intros Hcall.
    destruct (get_asset_flexibility_callable a time Hcall)
      as (ups & downs & Hret & Hlu & Hld & _).
    eauto.
  - intros (ups & downs & Hret & _). unfold callable.
    unfold get_asset_flexibility in Hret.
    destruct (Charge a) as [charge|]; [|exact I].
    destruct (Energy a) as [energy|]; [|discriminate].
    split; [discriminate|].
    destruct time as [|t0 [|t1 rest]]; simpl in *; try discriminate. lia.
  - intros e. unfold get_asset_flexibility.
    destruct (Charge a) as [charge|]; [|discriminate].
    destruct (Energy a) as [energy|]; simpl; [|intros [= <-]; auto].
    destruct time as [|t0 [|t1 rest]]; simpl; try discriminate;
      intros [= <-]; auto.
Qed.

(** ** The disturbance curve *)

Lemma pi_nonzero : ~ np.pi == 0.
Proof. vm_compute. discriminate. Qed.

Lemma Qsquare_zero (x : Q) : x ^ 2 == 0 -> x == 0.
Proof.
  intros H. change (x * x == 0) in H.
  destruct (Qmult_integral _ _ H); assumption.
Qed.

Lemma omega_nonzero (f : Q) : ~ f == 0 -> ~ (4 * np.pi * f / 2) ^ 2 == 0.
Proof.
  intros Hf H. apply Qsquare_zero in H.
  assert (Hp : np.pi * f == 0).
  { setoid_replace (np.pi * f) with ((4 * np.pi * f / 2) * (1 / 2))
      by field.
    rewrite H. ring. }
  destruct (Qmult_integral _ _ Hp) as [H0|H0];
    [exact (pi_nonzero H0) | exact (Hf H0)].
Qed.

Lemma py_div_ok (x y : Q) : ~ y == 0 -> py_div x y = Ok (x / y).
Proof.
  intros H. unfold py_div.
  destruct (Qeq_bool y 0) eqn:E; [|reflexivity].
  apply Qeq_bool_iff in E. contradiction.
Qed.

Lemma np_rdiv_ok (x : Q) (time : list Q) :
  (forall t, In t time -> ~ t == 0) ->
  np_rdiv x time = Ok (map (fun t => x / t) time).
Proof.
  intros H. unfold np_rdiv.
  destruct (existsb (fun t => Qeq_bool t 0) time) eqn:E; [|reflexivity].
  apply existsb_exists in E. destruct E as (t & Ht & E).
  apply Qeq_bool_iff in E. now apply H in Ht.
Qed.

(** What the call returns for a nonzero frequency on a grid without a
    zero. *)
Lemma get_power_disturbance_curve_ok (sys : system) (time : list Q) :
  ~ freq sys == 0 -> (forall t, In t time -> ~ t == 0) ->
  let K := inertia sys in
  let J := 2 * K / (4 * np.pi * freq sys / 2) ^ 2 in
  let K_m := (1 / 2 * J) * (4 * np.pi * freq_min sys / 2) ^ 2 in
  let K_M := (1 / 2 * J) * (4 * np.pi * freq_max sys / 2) ^ 2 in
  get_power_disturbance_curve time sys =
    Ok (mk_curve (map (fun t => - (K_M - K) / t) time)
                 (map (fun t => (K - K_m) / t) time)).
Proof.
  intros Hf Ht. cbv zeta. unfold get_power_disturbance_curve.
  rewrite py_div_ok by now apply omega_nonzero.
  simpl. rewrite !np_rdiv_ok by exact Ht. reflexivity.
Qed.

(** C3.  For a system with a nonzero frequency and a time [t] of a grid
    without a zero, [upper = K_availDown / t] and [lower = - K_availUp / t],
    the margins being those of the rotating-mass relation at [freq_min] and
    [freq_max] with the moment derived at the current frequency, whatever
    the nonzero scale between frequency and angular frequency; that is
    [upper = K * (1 - (freq_min / freq)^2) / t] and
    [lower = - K * ((freq_max / freq)^2 - 1) / t]. *)
Theorem disturbance_curve_formula (sys : system) (time : list Q)
  (Hfreq : ~ freq sys == 0) (Htime : forall t, In t time -> ~ t == 0) :
  exists lo up,
    get_power_disturbance_curve time sys = Ok (mk_curve lo up) /\
    length lo = length time /\ length up = length time /\
    forall k t, nth_error time k = Some t ->
      exists u l,
        nth_error up k = Some u /\ nth_error lo k = Some l /\
        (forall scale, ~ scale == 0 ->
           u == K_avail_down scale sys / t /\
           l == - K_avail_up scale sys / t) /\
        u == inertia sys * (1 - (freq_min sys / freq sys) ^ 2) / t /\
        l == - inertia sys * ((freq_max sys / freq sys) ^ 2 - 1) / t.
Proof.
  eexists. eexists. split.
  { apply (get_power_disturbance_curve_ok sys time Hfreq Htime). }
  rewrite !length_map. split; [reflexivity|]. split; [reflexivity|].
  intros k t Hk.
  assert (Ht : ~ t == 0) by (apply Htime; eapply nth_error_In; eauto).
  pose proof pi_nonzero as Hpi.
  eexists. eexists. rewrite !nth_error_map, Hk. cbn [option_map].
  split; [reflexivity|]. split; [reflexivity|].
  split; [|split].
  - intros scale Hs. unfold K_avail_down, K_avail_up, kinetic, moment.
    split; field; auto.
  - field; auto.
  - field; auto.
Qed.

Lemma disturbance_curve_formula_witness :
  ~ freq default_system == 0 /\
  (forall t, In t [1 # 10; 1; 5] -> ~ t == 0) /\
  exists lo up,
    get_power_disturbance_curve [1 # 10; 1; 5] default_system =
      Ok (mk_curve lo up) /\
    length lo = 3%nat /\ length up = 3%nat.
Proof.
  assert (Hfreq : ~ freq default_system == 0) by (vm_compute; discriminate).
  assert (Htime : forall t, In t [1 # 10; 1; 5] -> ~ t == 0).
  { intros t Ht. simpl in Ht.
    repeat (destruct Ht as [<-|Ht]; [vm_compute; discriminate|]).
    contradiction. }
  split; [exact Hfreq|]. split; [exact Htime|].
  destruct (disturbance_curve_formula default_system [1 # 10; 1; 5]
              Hfreq Htime) as (lo & up & Hret & Hlo & Hup & _).
  exists lo, up. auto.
Defined.

(** C5, the statement of the specification fails: at 60 Hz, midway
    between 59 and 61 Hz, with 50 MWs of inertia the two curves are not
    mirror images at [t = 1]: [upper] is [119/72] and [- lower] is
    [121/72]. *)
Lemma midway_curve_not_symmetric :
  freq default_system ==
    (freq_min default_system + freq_max default_system) / 2 /\
  exists u l,
    get_power_disturbance_curve [1] default_system =
      Ok (mk_curve [l] [u]) /\
    u == 119 # 72 /\ - l == 121 # 72 /\ ~ u == - l.
Proof.
  split; [reflexivity|].
  eexists. eexists. split; [vm_compute; reflexivity|].
  split; [reflexivity|]. split; [reflexivity|].
  vm_compute. discriminate.
Qed.

(** C5, amended.  With the frequency midway between its limits, at every
    time [t] of the grid [upper] falls short of [- lower] by
    [2 K ((freq_max - freq_min) / (2 freq))^2 / t]: the kinetic energy
    grows with the square of the frequency.  The two are equal only for an
    inertia of zero or for limits that coincide. *)
Theorem midway_curve_asymmetry (sys : system) (time : list Q)
  (Hmid : freq sys == (freq_min sys + freq_max sys) / 2)
  (Hfreq : ~ freq sys == 0) (Htime : forall t, In t time -> ~ t == 0) :
  exists lo up,
    get_power_disturbance_curve time sys = Ok (mk_curve lo up) /\
    forall k t, nth_error time k = Some t ->
      exists u l,
        nth_error up k = Some u /\ nth_error lo k = Some l /\
        u == - l - 2 * inertia sys *
                   ((freq_max sys - freq_min sys) / (2 * freq sys)) ^ 2 / t /\
        (u == - l <-> inertia sys == 0 \/ freq_min sys == freq_max sys).
Proof.
  eexists. eexists. split.
  { apply (get_power_disturbance_curve_ok sys time Hfreq Htime). }
  intros k t Hk.
  assert (Ht : ~ t == 0) by (apply Htime; eapply nth_error_In; eauto).
  pose proof pi_nonzero as Hpi.
  eexists. eexists. rewrite !nth_error_map, Hk. cbn [option_map].
  split; [reflexivity|]. split; [reflexivity|].
  set (K := inertia sys) in *. set (f := freq sys) in *.
  set (fm := freq_min sys) in *. set (fM := freq_max sys) in *.
  set (u := (K - 1 / 2 * (2 * K / (4 * np.pi * f / 2) ^ 2) *
                 (4 * np.pi * fm / 2) ^ 2) / t).
  set (l := - (1 / 2 * (2 * K / (4 * np.pi * f / 2) ^ 2) *
               (4 * np.pi * fM / 2) ^ 2 - K) / t).
  assert (Hsum : u + l == K * (2 * f ^ 2 - fm ^ 2 - fM ^ 2) / (f ^ 2 * t))
    by (unfold u, l; field; auto).
  assert (HM : fM == 2 * f - fm) by (rewrite Hmid; field).
  assert (Hgap : u == - l - 2 * K * ((fM - fm) / (2 * f)) ^ 2 / t).
  { assert (E : u == - l + (u + l)) by ring.
    rewrite E, Hsum, HM. field; auto. }
  split; [exact Hgap|]. clearbody u l.
  assert (Hscale : 2 * K * ((fM - fm) / (2 * f)) ^ 2 / t ==
                   (K * ((fM - fm) * (fM - fm))) * (1 / (2 * f ^ 2 * t)))
    by (field; auto).
  assert (Hinv : ~ 1 / (2 * f ^ 2 * t) == 0).
  { intros H. assert (E : 1 == (1 / (2 * f ^ 2 * t)) * (2 * f ^ 2 * t))
      by (field; auto).
    rewrite H in E. revert E. vm_compute. discriminate. }
  set (gap := 2 * K * ((fM - fm) / (2 * f)) ^ 2 / t) in *.
  split.
  - intros Heq.
    assert (Hz : (K * ((fM - fm) * (fM - fm))) * (1 / (2 * f ^ 2 * t)) == 0)
      by (rewrite <- Hscale; lra).
    destruct (Qmult_integral _ _ Hz) as [Hz1|Hz1]; [|contradiction].
    destruct (Qmult_integral _ _ Hz1) as [HK|Hd]; [now left|right].
    destruct (Qmult_integral _ _ Hd); lra.
  - intros [HK|Hd]; rewrite Hgap, Hscale.
    + rewrite HK. ring.
    + rewrite Hd. ring.
Qed.

Lemma midway_curve_asymmetry_witness :
  freq default_system ==
    (freq_min default_system + freq_max default_system) / 2 /\
  ~ freq default_system == 0 /\
  (forall t, In t [1] -> ~ t == 0) /\
  exists lo up,
    get_power_disturbance_curve [1] default_system = Ok (mk_curve lo up).
Proof.
  assert (Hmid : freq default_system ==
                 (freq_min default_system + freq_max default_system) / 2)
    by reflexivity.
  assert (Hfreq : ~ freq default_system == 0) by (vm_compute; discriminate).
  assert (Htime : forall t, In t [1] -> ~ t == 0).
  { intros t [<-|[]]. vm_compute. discriminate. }
  split; [exact Hmid|]. split; [exact Hfreq|]. split; [exact Htime|].
  destruct (midway_curve_asymmetry default_system [1] Hmid Hfreq Htime)
    as (lo & up & Hret & _).
  exists lo, up. exact Hret.
Defined.

(** ** The solver *)

Lemma first_true_sound (cond : list bool) (j : nat) :
  np.first_true cond = Some j ->
  nth_error cond j = Some true /\
  forall k, (k < j)%nat -> nth_error cond k = Some false.
Proof.
  revert j. induction cond as [|b cond IH]; intros j; simpl; [discriminate|].
  destruct b.
  - intros [= <-]. split; [reflexivity | intros k Hk; lia].
  - destruct (np.first_true cond) as [j'|]; simpl; [|discriminate].
    intros [= <-]. destruct (IH j' eq_refl) as [Hj Hbefore].
    split; [exact Hj|]. intros [|k] Hk; simpl; [reflexivity|].
    apply Hbefore. lia.
Qed.

Lemma first_true_none (cond : list bool) :
  np.first_true cond = None -> forall k, nth_error cond k <> Some true.
Proof.
  induction cond as [|b cond IH]; simpl; intros H k.
  - destruct k; discriminate.
  - destruct b; [discriminate|].
    destruct (np.first_true cond); [discriminate|].
    destruct k as [|k]; simpl; [discriminate | now apply IH].
Qed.

Lemma first_true_complete (cond : list bool) (j : nat) :
  nth_error cond j = Some true ->
  (forall k, (k < j)%nat -> nth_error cond k <> Some true) ->
  np.first_true cond = Some j.
Proof.
  intros Hj Hbefore.
  destruct (np.first_true cond) as [i|] eqn:E.
  - destruct (first_true_sound cond i E) as [Hi Hfalse].
    destruct (Nat.lt_trichotomy i j) as [Hlt|[->|Hgt]]; [|reflexivity|].
    + now apply Hbefore in Hlt.
    + rewrite (Hfalse j Hgt) in Hj. discriminate.
  - now apply first_true_none with (k := j) in E.
Qed.

Lemma nth_error_combine {A B : Type} (xs : list A) (ys : list B) (k : nat) :
  nth_error (combine xs ys) k =
    match nth_error xs k, nth_error ys k with
    | Some x, Some y => Some (x, y)
    | _, _ => None
    end.
Proof.
  revert ys k. induction xs as [|x xs IH]; intros [|y ys] [|k]; simpl;
    try reflexivity.
  - now destruct (nth_error xs k).
  - apply IH.
Qed.

(** The mask of a comparison between an array and a value that fits it. *)
Lemma nd_compare_fits (f : Q -> Q -> bool) (a : list Q) (v : ndval) :
  nd_fits (length a) v ->
  exists mask,
    nd_compare f a v = Ok mask /\ length mask = length a /\
    forall k, nth_error mask k =
                match nth_error a k, nd_nth v k with
                | Some x, Some y => Some (f x y)
                | _, _ => None
                end.
Proof.
  destruct v as [y|ys]; simpl; intros Hfit.
  - eexists. split; [reflexivity|]. rewrite length_map. split; [reflexivity|].
    intros k. rewrite nth_error_map. now destruct (nth_error a k).
  - unfold np.broadcast. rewrite Hfit, Nat.eqb_refl.
    eexists. split; [reflexivity|].
    rewrite length_map, length_combine, Hfit, Nat.min_id.
    split; [reflexivity|].
    intros k. rewrite nth_error_map, nth_error_combine.
    destruct (nth_error a k), (nth_error ys k); reflexivity.
Qed.

Section Solver.

Variables (f : flex) (c : curve) (time : list Q).

Hypothesis Hup : nd_fits (length time) (Up f).
Hypothesis Hdown : nd_fits (length time) (Down f).
Hypothesis Hupper : length (upper c) = length time.
Hypothesis Hlower : length (lower c) = length time.

(** The two masks the solver searches, and what their entries say. *)
Lemma solver_masks :
  exists below above,
    nd_compare Qgt_bool (lower c) (Down f) = Ok below /\
    nd_compare Qlt_bool (upper c) (Up f) = Ok above /\
    length below = length time /\ length above = length time /\
    (forall k, nth_error below k = Some true <-> crosses_down f c k) /\
    (forall k, nth_error above k = Some true <-> crosses_up f c k).
Proof.
  destruct (nd_compare_fits Qgt_bool (lower c) (Down f))
    as (below & Hb & Hlb & Hnb); [now rewrite Hlower|].
  destruct (nd_compare_fits Qlt_bool (upper c) (Up f))
    as (above & Ha & Hla & Hna); [now rewrite Hupper|].
  exists below, above.
  split; [exact Hb|]. split; [exact Ha|].
  split; [congruence|]. split; [congruence|]. split.
  - intros k. rewrite Hnb. unfold crosses_down. split.
    + destruct (nth_error (lower c) k) as [l|]; [|discriminate].
      destruct (nd_nth (Down f) k) as [e|]; [|discriminate].
      intros [= H]. exists l, e. repeat split. now apply Qlt_bool_iff.
    + intros (l & e & -> & -> & H). f_equal. now apply Qlt_bool_iff.
  - intros k. rewrite Hna. unfold crosses_up. split.
    + destruct (nth_error (upper c) k) as [u|]; [|discriminate].
      destruct (nd_nth (Up f) k) as [e|]; [|discriminate].
      intros [= H]. exists u, e. repeat split. now apply Qlt_bool_iff.
    + intros (u & e & -> & -> & H). f_equal. now apply Qlt_bool_iff.
Qed.

(** The outcome of the solver, by the outcome of its two searches. *)
Lemma solver_outcome :
  (exists i j uj li tj ti,
     first_index (crosses_down f c) i /\ first_index (crosses_up f c) j /\
     nth_error (upper c) j = Some uj /\ nth_error (lower c) i = Some li /\
     nth_error time j = Some tj /\ nth_error time i = Some ti /\
     get_max_min_disturbance f c time = Ok (mk_disturbance uj li tj ti)) \/
  (((~ exists j, crosses_up f c j) \/ (~ exists i, crosses_down f c i)) /\
   get_max_min_disturbance f c time = Raise IndexError).
Proof.
  destruct solver_masks as (below & above & Hb & Ha & Hlb & Hla & Hdn & Hupw).
  unfold get_max_min_disturbance, np.argwhere0. rewrite Hb. simpl.
  destruct (np.first_true below) as [i|] eqn:Ei; simpl.
  - rewrite Ha. simpl.
    destruct (np.first_true above) as [j|] eqn:Ej; simpl.
    + left.
      destruct (first_true_sound below i Ei) as [Hi Hibefore].
      destruct (first_true_sound above j Ej) as [Hj Hjbefore].
      assert (Hilt : (i < length time)%nat)
        by (rewrite <- Hlb; apply nth_error_Some; congruence).
      assert (Hjlt : (j < length time)%nat)
        by (rewrite <- Hla; apply nth_error_Some; congruence).
      destruct (nth_error_in_range (upper c) j) as [uj Huj]; [lia|].
      destruct (nth_error_in_range (lower c) i) as [li Hli]; [lia|].
      destruct (nth_error_in_range time j Hjlt) as [tj Htj].
      destruct (nth_error_in_range time i Hilt) as [ti Hti].
      exists i, j, uj, li, tj, ti.
      split; [|split].
      * split; [now apply Hdn|]. intros k Hk Hcross.
        apply Hdn in Hcross. rewrite (Hibefore k Hk) in Hcross. discriminate.
      * split; [now apply Hupw|]. intros k Hk Hcross.
        apply Hupw in Hcross. rewrite (Hjbefore k Hk) in Hcross.
        discriminate.
      * unfold np.getitem. rewrite Huj, Hli, Htj, Hti. simpl. auto.
    + right. split; [|reflexivity].
      left. intros [j Hj]. apply Hupw in Hj.
      exact (first_true_none above Ej j Hj).
  - right. split; [|reflexivity].
    right. intros [i Hi]. apply Hdn in Hi.
    exact (first_true_none below Ei i Hi).
Qed.

Lemma first_index_unique (P : nat -> Prop) (i j : nat) :
  first_index P i -> first_index P j -> i = j.
Proof.
  intros [Hi Hibefore] [Hj Hjbefore].
  destruct (Nat.lt_trichotomy i j) as [Hlt|[->|Hgt]]; [|reflexivity|].
  - now apply Hjbefore in Hlt.
  - now apply Hibefore in Hgt.
Qed.

End Solver.

(** C1.  For a system envelope, a disturbance curve and a time grid of one
    length (an envelope entry may also be a scalar, which stands at every
    index), with [j] the least index at which [upper[j] < Up[j]] and [i] the
    least index at which [lower[i] > Down[i]], the solver returns
    [upper[j]] at [time[j]] and [lower[i]] at [time[i]].  The comparisons
    are strict: an index at which curve and envelope are equal is not a
    crossing. *)
Theorem first_crossing (f : flex) (c : curve) (time : list Q) (i j : nat)
  (Hup : nd_fits (length time) (Up f))
  (Hdown : nd_fits (length time) (Down f))
  (Hupper : length (upper c) = length time)
  (Hlower : length (lower c) = length time)
  (Hj : first_index (crosses_up f c) j)
  (Hi : first_index (crosses_down f c) i) :
  (exists uj li tj ti,
     nth_error (upper c) j = Some uj /\ nth_error (lower c) i = Some li /\
     nth_error time j = Some tj /\ nth_error time i = Some ti /\
     get_max_min_disturbance f c time = Ok (mk_disturbance uj li tj ti)) /\
  (forall k u e, nth_error (upper c) k = Some u ->
                 nd_nth (Up f) k = Some e -> u == e -> ~ crosses_up f c k) /\
  (forall k l e, nth_error (lower c) k = Some l ->
                 nd_nth (Down f) k = Some e -> l == e ->
                 ~ crosses_down f c k).
Proof.
  split; [|split].
  - destruct (solver_outcome f c time Hup Hdown Hupper Hlower)
      as [(i' & j' & uj & li & tj & ti & Hi' & Hj' & Huj & Hli & Htj & Hti
           & Hret) | [[Hnone|Hnone] _]].
    + rewrite (first_index_unique _ _ _ Hi Hi').
      rewrite (first_index_unique _ _ _ Hj Hj').
      exists uj, li, tj, ti. auto.
    + exfalso. apply Hnone. exists j. apply Hj.
    + exfalso. apply Hnone. exists i. apply Hi.
  - intros k u e Hu He Heq (u' & e' & Hu' & He' & Hlt).
    rewrite Hu in Hu'. rewrite He in He'.
    injection Hu' as <-. injection He' as <-. lra.
  - intros k l e Hl He Heq (l' & e' & Hl' & He' & Hlt).
    rewrite Hl in Hl'. rewrite He in He'.
    injection Hl' as <-. injection He' as <-. lra.
Qed.

Ltac no_crossing_below :=
  let k := fresh "k" in
  let Hk := fresh "Hk" in
  let x := fresh "x" in
  let e := fresh "e" in
  let Hx := fresh "Hx" in
  let He := fresh "He" in
  let Hlt := fresh "Hlt" in
  intros k Hk (x & e & Hx & He & Hlt);
  repeat (destruct k as [|k]; [simpl in Hx, He;
                               injection Hx as <-; injection He as <-;
                               vm_compute in Hlt; discriminate|]);
  lia.

Lemma first_crossing_witness :
  nd_fits (length sample_time) (Up crossing_flex) /\
  nd_fits (length sample_time) (Down crossing_flex) /\
  length (upper sample_curve) = length sample_time /\
  length (lower sample_curve) = length sample_time /\
  first_index (crosses_up crossing_flex sample_curve) 2 /\
  first_index (crosses_down crossing_flex sample_curve) 1 /\
  get_max_min_disturbance crossing_flex sample_curve sample_time =
    Ok (mk_disturbance 1 (- (3)) 3 2).
Proof.
  assert (Hj : first_index (crosses_up crossing_flex sample_curve) 2).
  { split; [|no_crossing_below].
    exists 1, 2. repeat split. }
  assert (Hi : first_index (crosses_down crossing_flex sample_curve) 1).
  { split; [|no_crossing_below].
    exists (- (3)), (- (4)). repeat split. }
  split; [reflexivity|]. split; [reflexivity|].
  split; [reflexivity|]. split; [reflexivity|].
  split; [exact Hj|]. split; [exact Hi|].
  destruct (proj1 (first_crossing crossing_flex sample_curve sample_time 1 2
                     eq_refl eq_refl eq_refl eq_refl Hj Hi))
    as (uj & li & tj & ti & Huj & Hli & Htj & Hti & Hret).
  injection Huj as <-. injection Hli as <-.
  injection Htj as <-. injection Hti as <-. exact Hret.
Defined.

(** C8.  The solver raises its [IndexError] (the [NoCrossingFound] of the
    specification: [np.argwhere(..)[0]] on an empty result) exactly when no
    index crosses upwards or no index crosses downwards; it then returns no
    result at all, and it raises nothing else. *)
Theorem no_crossing_found (f : flex) (c : curve) (time : list Q)
  (Hup : nd_fits (length time) (Up f))
  (Hdown : nd_fits (length time) (Down f))
  (Hupper : length (upper c) = length time)
  (Hlower : length (lower c) = length time) :
  (get_max_min_disturbance f c time = Raise IndexError <->
   (~ exists j, crosses_up f c j) \/ (~ exists i, crosses_down f c i)) /\
  ((~ exists j, crosses_up f c j) \/ (~ exists i, crosses_down f c i) ->
   forall r, get_max_min_disturbance f c time <> Ok r) /\
  (forall e, get_max_min_disturbance f c time = Raise e -> e = IndexError).
Proof.
  destruct (solver_outcome f c time Hup Hdown Hupper Hlower)
    as [(i & j & uj & li & tj & ti & Hi & Hj & _ & _ & _ & _ & Hret)
       | [Hnone Hret]]; rewrite Hret.
  - assert (Hboth : ~ ((~ exists j, crosses_up f c j) \/
                       (~ exists i, crosses_down f c i))).
    { intros [H|H]; apply H; [exists j; apply Hj | exists i; apply Hi]. }
    split; [split|split]; try discriminate; tauto.
  - split; [tauto|]. split; [discriminate|]. now intros e [= <-].
Qed.

Lemma no_crossing_found_witness :
  nd_fits (length sample_time) (Up flat_flex) /\
  nd_fits (length sample_time) (Down flat_flex) /\
  length (upper sample_curve) = length sample_time /\
  length (lower sample_curve) = length sample_time /\
  get_max_min_disturbance flat_flex sample_curve sample_time =
    Raise IndexError /\
  ((~ exists j, crosses_up flat_flex sample_curve j) \/
   (~ exists i, crosses_down flat_flex sample_curve i)).
Proof.
  split; [reflexivity|]. split; [reflexivity|].
  split; [reflexivity|]. split; [reflexivity|].
  split; [reflexivity|].
  apply (proj1 (no_crossing_found flat_flex sample_curve sample_time
                  eq_refl eq_refl eq_refl eq_refl)).
  reflexivity.
Defined.

(** ** Aggregation *)

Lemma arr_eq_refl (xs : list Q) : arr_eq xs xs.
Proof. induction xs; constructor; [reflexivity | assumption]. Qed.

Lemma nd_eq_refl (v : ndval) : nd_eq v v.
Proof. destruct v; simpl; [reflexivity | apply arr_eq_refl]. Qed.

Lemma map_add_l_proper (x x' : Q) (ys ys' : list Q) :
  x == x' -> arr_eq ys ys' ->
  arr_eq (map (fun y => x + y) ys) (map (fun y => x' + y) ys').
Proof.
  intros Hx Hy. induction Hy as [|y y' ys ys' Hyy _ IH]; simpl;
    constructor; [now rewrite Hx, Hyy | exact IH].
Qed.

Lemma map_add_r_proper (xs xs' : list Q) (y y' : Q) :
  arr_eq xs xs' -> y == y' ->
  arr_eq (map (fun x => x + y) xs) (map (fun x => x + y') xs').
Proof.
  intros Hx Hy. induction Hx as [|x x' xs xs' Hxx _ IH]; simpl;
    constructor; [now rewrite Hxx, Hy | exact IH].
Qed.

Lemma zip_add_proper (xs xs' ys ys' : list Q) :
  arr_eq xs xs' -> arr_eq ys ys' ->
  arr_eq (map (fun p => fst p + snd p) (combine xs ys))
         (map (fun p => fst p + snd p) (combine xs' ys')).
Proof.
  intros Hx. revert ys ys'.
  induction Hx as [|x x' xs xs' Hxx _ IH]; intros ys ys' Hy; simpl;
    [constructor|].
  destruct Hy as [|y y' ys ys' Hyy Hy]; simpl; constructor.
  - simpl. now rewrite Hxx, Hyy.
  - now apply IH.
Qed.

Lemma broadcast_add_proper (xs xs' ys ys' : list Q) :
  arr_eq xs xs' -> arr_eq ys ys' ->
  res_eq arr_eq (np.broadcast Qplus xs ys) (np.broadcast Qplus xs' ys').
Proof.
  intros Hx Hy. unfold np.broadcast.
  rewrite <- (Forall2_length Hx), <- (Forall2_length Hy).
  destruct (Nat.eqb (length xs) (length ys)); simpl.
  - now apply zip_add_proper.
  - destruct Hx as [|x x' xs xs' Hxx Hx].
    + destruct Hy as [|y y' ys ys' Hyy Hy]; simpl; [reflexivity|].
      destruct Hy; simpl; [constructor | reflexivity].
    + destruct Hx as [|x2 x2' xs xs' Hxx2 Hx].
      * simpl. now apply map_add_l_proper.
      * destruct Hy as [|y y' ys ys' Hyy Hy]; simpl; [reflexivity|].
        destruct Hy; simpl; [|reflexivity].
        apply (map_add_r_proper (x :: x2 :: xs) (x' :: x2' :: xs'));
          [repeat constructor; assumption | assumption].
Qed.

Lemma nd_add_proper (v v' w w' : ndval) :
  nd_eq v v' -> nd_eq w w' ->
  res_eq nd_eq (nd_add v w) (nd_add v' w').
Proof.
  destruct v as [x|xs], v' as [x'|xs']; simpl; try contradiction;
  destruct w as [y|ys], w' as [y'|ys']; simpl; try contradiction;
    intros Hv Hw.
  - now rewrite Hv, Hw.
  - now apply map_add_l_proper.
  - now apply map_add_r_proper.
  - pose proof (broadcast_add_proper xs xs' ys ys' Hv Hw) as H.
    destruct (np.broadcast Qplus xs ys), (np.broadcast Qplus xs' ys');
      simpl in *; assumption.
Qed.

Lemma nd_add_zero_l (v : ndval) :
  res_eq nd_eq (nd_add (Scalar 0) v) (Ok v).
Proof.
  destruct v as [x|xs]; simpl; [ring|].
  induction xs as [|x xs IH]; simpl; constructor; [ring | exact IH].
Qed.

Lemma nd_add_zero_r (v : ndval) :
  res_eq nd_eq (nd_add v (Scalar 0)) (Ok v).
Proof.
  destruct v as [x|xs]; simpl; [ring|].
  induction xs as [|x xs IH]; simpl; constructor; [ring | exact IH].
Qed.

Lemma add_to_proper (r r' : result ndval) (v : ndval) :
  res_eq nd_eq r r' -> res_eq nd_eq (add_to r v) (add_to r' v).
Proof.
  destruct r as [x|e], r' as [x'|e']; simpl; try contradiction.
  - intros H. apply nd_add_proper; [exact H | apply nd_eq_refl].
  - trivial.
Qed.

Lemma add_to_zero (r : result ndval) :
  res_eq nd_eq (add_to r (Scalar 0)) r.
Proof.
  destruct r as [x|e]; simpl; [apply nd_add_zero_r | reflexivity].
Qed.

Lemma sum_from_proper (vs : list ndval) (r r' : result ndval) :
  res_eq nd_eq r r' -> res_eq nd_eq (sum_from r vs) (sum_from r' vs).
Proof.
  revert r r'. induction vs as [|v vs IH]; intros r r' H; simpl; [exact H|].
  apply IH. now apply add_to_proper.
Qed.

(** A scalar zero among the terms of a sum changes nothing, wherever it
    stands and however many terms there are. *)
Lemma sum_from_zero_inside (r : result ndval) (before after : list ndval) :
  res_eq nd_eq (sum_from r (before ++ Scalar 0 :: after))
               (sum_from r (before ++ after)).
Proof.
  unfold sum_from. rewrite !fold_left_app. simpl.
  apply sum_from_proper, add_to_zero.
Qed.

Lemma sum_from_zero_first (v : ndval) (vs : list ndval) :
  res_eq nd_eq (sum_from (Ok (Scalar 0)) (v :: vs)) (sum_from (Ok v) vs).
Proof.
  simpl. apply sum_from_proper. apply nd_add_zero_l.
Qed.

Lemma sum5_fold (a b c d e : ndval) :
  sum5 a b c d e = sum_from (Ok a) [b; c; d; e].
Proof.
  unfold sum5. simpl. destruct (nd_add a b) as [ab|]; simpl; [|reflexivity].
  destruct (nd_add ab c) as [abc|]; simpl; [|reflexivity].
  destruct (nd_add abc d) as [abcd|]; simpl; reflexivity.
Qed.

Lemma sum4_fold (a b c d : ndval) :
  sum4 a b c d = sum_from (Ok a) [b; c; d].
Proof.
  unfold sum4. simpl. destruct (nd_add a b) as [ab|]; simpl; [|reflexivity].
  destruct (nd_add ab c) as [abc|]; simpl; reflexivity.
Qed.

Lemma aggregation_proper (u u' d d' : result ndval) :
  res_eq nd_eq u u' -> res_eq nd_eq d d' ->
  res_eq flex_eq
    (flex_up <- u ;; flex_down <- d ;; Ok (mk_flex flex_up flex_down None))
    (flex_up <- u' ;; flex_down <- d' ;; Ok (mk_flex flex_up flex_down None)).
Proof.
  destruct u, u'; simpl; try contradiction; [|trivial].
  destruct d, d'; simpl; try contradiction; [|trivial].
  intros Hu Hd. split; assumption.
Qed.

(** C6.  The call for an absent asset returns the zero envelope, zero at
    every index and with an output of zero; in whichever of the five places
    of the aggregation it stands, the aggregate is, entry by entry in [Up]
    and in [Down], the aggregate of the four other envelopes. *)
Theorem absent_asset_is_neutral (time : list Q) :
  get_asset_flexibility None time = Ok zero_flex /\
  (forall k, nd_nth (Up zero_flex) k = Some 0 /\
             nd_nth (Down zero_flex) k = Some 0) /\
  flex_Output zero_flex = Some 0 /\
  forall f1 f2 f3 f4 : flex,
    let without := aggregation_of_four f1 f2 f3 f4 in
    res_eq flex_eq (flexibility_aggreagation zero_flex f1 f2 f3 f4) without /\
    res_eq flex_eq (flexibility_aggreagation f1 zero_flex f2 f3 f4) without /\
    res_eq flex_eq (flexibility_aggreagation f1 f2 zero_flex f3 f4) without /\
    res_eq flex_eq (flexibility_aggreagation f1 f2 f3 zero_flex f4) without /\
    res_eq flex_eq (flexibility_aggreagation f1 f2 f3 f4 zero_flex) without.
Proof.
  split; [reflexivity|]. split; [intros k; split; reflexivity|].
  split; [reflexivity|].
  intros f1 f2 f3 f4 without. unfold without.
  unfold flexibility_aggreagation, aggregation_of_four.
  rewrite !sum5_fold, !sum4_fold.
  split; [|split; [|split; [|split]]]; apply aggregation_proper; simpl Up;
    simpl Down.
  - apply sum_from_zero_first.
  - apply sum_from_zero_first.
  - apply (sum_from_zero_inside _ []).
  - apply (sum_from_zero_inside _ []).
  - apply (sum_from_zero_inside _ [_]).
  - apply (sum_from_zero_inside _ [_]).
  - apply (sum_from_zero_inside _ [_; _]).
  - apply (sum_from_zero_inside _ [_; _]).
  - apply (sum_from_zero_inside _ [_; _; _]).
  - apply (sum_from_zero_inside _ [_; _; _]).
Qed.

(** ** More on the envelope of an asset *)

(** A callable call, index by index: each entry is zero or the clamped
    ramp at the time of its index. *)
Lemma get_asset_flexibility_nth (a : asset) (time : list Q) :
  callable a time ->
  exists ups downs,
    get_asset_flexibility (Some a) time =
      Ok (mk_flex (Arr ups) (Arr downs) (Some (Output a))) /\
    length ups = length time /\ length downs = length time /\
    forall k t, nth_error time k = Some t ->
      exists u d,
        nth_error ups k = Some u /\ nth_error downs k = Some d /\
        (u = 0 \/ u = up_at a t) /\ (d = 0 \/ d = down_at a t) /\
        (Charge a = None -> u = up_at a t /\ d = down_at a t).
Proof.
  unfold callable. intros Hcall.
  destruct (Charge a) as [charge|] eqn:Hc.
  - destruct Hcall as [He Hlen].
    destruct (Energy a) as [energy|] eqn:Hen; [|congruence].
    destruct time as [|t0 [|t1 rest]]; simpl in Hlen; try lia.
    rewrite (get_asset_flexibility_storage a charge energy t0 t1 rest Hc Hen).
    eexists. eexists. split; [reflexivity|].
    rewrite limit_up_length, limit_down_length, !length_map.
    split; [reflexivity|]. split; [reflexivity|].
    intros k t Hk.
    set (time := t0 :: t1 :: rest) in *.
    assert (Hu : nth_error (map (up_at a) time) k = Some (up_at a t))
      by now rewrite nth_error_map, Hk.
    assert (Hd : nth_error (map (down_at a) time) k = Some (down_at a t))
      by now rewrite nth_error_map, Hk.
    destruct (cumsum_nth_exists _ _ _ Hu) as [cu Hcu].
    destruct (cumsum_nth_exists _ _ _ Hd) as [cd Hcd].
    eexists. eexists.
    split; [exact (limit_up_nth _ _ _ _ _ _ Hcu Hu)|].
    split; [exact (limit_down_nth _ _ _ _ _ _ Hcd Hd)|].
    split; [|split]; [| |discriminate].
    + destruct (Qgt_bool _ _); auto.
    + destruct (Qgt_bool _ _); auto.
  - rewrite (get_asset_flexibility_plain a time Hc).
    eexists. eexists. split; [reflexivity|].
    rewrite !length_map. split; [reflexivity|]. split; [reflexivity|].
    intros k t Hk. exists (up_at a t), (down_at a t).
    rewrite !nth_error_map, Hk. simpl. auto 6.
Qed.

Lemma up_at_before_latency (a : asset) (t : Q) :
  Output a <= Max_Output a -> 0 <= Ramp_Up a -> t <= Latency a ->
  up_at a t == 0.
Proof.
  intros Hhi Hr Ht. unfold up_at, Qgt_bool.
  assert (Hprod : t * Ramp_Up a - Latency a * Ramp_Up a <= 0) by nra.
  destruct (Qlt_bool_reflect (t * Ramp_Up a - Latency a * Ramp_Up a) 0);
  match goal with
  | |- context [Qlt_bool ?x ?y] => destruct (Qlt_bool_reflect x y)
  end; lra.
Qed.

Lemma down_at_before_latency (a : asset) (t : Q) :
  Min_Output a <= Output a -> 0 <= Ramp_Down a -> t <= Latency a ->
  down_at a t == 0.
Proof.
  intros Hlo Hr Ht. unfold down_at, Qgt_bool.
  assert (Hprod : 0 <= t * - Ramp_Down a - Latency a * - Ramp_Down a) by nra.
  destruct (Qlt_bool_reflect 0
              (t * - Ramp_Down a - Latency a * - Ramp_Down a));
  match goal with
  | |- context [Qlt_bool ?x ?y] => destruct (Qlt_bool_reflect x y)
  end; lra.
Qed.

Lemma up_at_monotone (a : asset) (t t' : Q) :
  0 <= Ramp_Up a -> t <= t' -> up_at a t <= up_at a t'.
Proof.
  intros Hr Ht. unfold up_at, Qgt_bool.
  assert (Hprod : t * Ramp_Up a - Latency a * Ramp_Up a <=
                  t' * Ramp_Up a - Latency a * Ramp_Up a) by nra.
  destruct (Qlt_bool_reflect (t * Ramp_Up a - Latency a * Ramp_Up a) 0);
  destruct (Qlt_bool_reflect (t' * Ramp_Up a - Latency a * Ramp_Up a) 0);
  repeat match goal with
  | |- context [Qlt_bool ?x ?y] => destruct (Qlt_bool_reflect x y)
  end; lra.
Qed.

Lemma down_at_monotone (a : asset) (t t' : Q) :
  0 <= Ramp_Down a -> t <= t' -> down_at a t' <= down_at a t.
Proof.
  intros Hr Ht. unfold down_at, Qgt_bool.
  assert (Hprod : t' * - Ramp_Down a - Latency a * - Ramp_Down a <=
                  t * - Ramp_Down a - Latency a * - Ramp_Down a) by nra.
  destruct (Qlt_bool_reflect 0
              (t * - Ramp_Down a - Latency a * - Ramp_Down a));
  destruct (Qlt_bool_reflect 0
              (t' * - Ramp_Down a - Latency a * - Ramp_Down a));
  repeat match goal with
  | |- context [Qlt_bool ?x ?y] => destruct (Qlt_bool_reflect x y)
  end; lra.
Qed.

Lemma up_at_saturated (a : asset) (t : Q) :
  Max_Output a - Output a <= Ramp_Up a * (t - Latency a) ->
  up_at a t == Max_Output a - Output a.
Proof.
  intros Hsat. unfold up_at, Qgt_bool.
  destruct (Qlt_bool_reflect (t * Ramp_Up a - Latency a * Ramp_Up a) 0);
  match goal with
  | |- context [Qlt_bool ?x ?y] => destruct (Qlt_bool_reflect x y)
  end; lra.
Qed.

Lemma down_at_saturated (a : asset) (t : Q) :
  - Ramp_Down a * (t - Latency a) <= Min_Output a - Output a ->
  down_at a t == Min_Output a - Output a.
Proof.
  intros Hsat. unfold down_at, Qgt_bool.
  destruct (Qlt_bool_reflect 0
              (t * - Ramp_Down a - Latency a * - Ramp_Down a));
  match goal with
  | |- context [Qlt_bool ?x ?y] => destruct (Qlt_bool_reflect x y)
  end; lra.
Qed.

(** X1.  With [output <= maxOutput] every entry of [Up] is nonnegative, and
    with [minOutput <= output] every entry of [Down] is nonpositive, for
    storage after its energy limit too. *)
Theorem envelope_signs (a : asset) (time : list Q)
  (Hcall : callable a time) :
  exists ups downs,
    get_asset_flexibility (Some a) time =
      Ok (mk_flex (Arr ups) (Arr downs) (Some (Output a))) /\
    (Output a <= Max_Output a -> forall u, In u ups -> 0 <= u) /\
    (Min_Output a <= Output a -> forall d, In d downs -> d <= 0).
Proof.
  destruct (get_asset_flexibility_callable a time Hcall)
    as (ups & downs & Hret & _ & _ & Hups & Hdowns).
  exists ups, downs. split; [exact Hret|]. split.
  - intros Hhi u Hu. destruct (Hups u Hu) as [->|(t & _ & ->)]; [lra|].
    now apply up_at_nonneg.
  - intros Hlo d Hd. destruct (Hdowns d Hd) as [->|(t & _ & ->)]; [lra|].
    now apply down_at_nonpos.
Qed.

Lemma envelope_signs_witness :
  callable battery_asset [1 # 10; 2 # 10; 3 # 10] /\
  exists ups downs,
    get_asset_flexibility (Some battery_asset) [1 # 10; 2 # 10; 3 # 10] =
      Ok (mk_flex (Arr ups) (Arr downs) (Some (Output battery_asset))) /\
    (forall u, In u ups -> 0 <= u) /\ (forall d, In d downs -> d <= 0).
Proof.
  assert (Hcall : callable battery_asset [1 # 10; 2 # 10; 3 # 10])
    by (unfold callable; simpl; split; [discriminate | lia]).
  split; [exact Hcall|].
  destruct (envelope_signs battery_asset [1 # 10; 2 # 10; 3 # 10] Hcall)
    as (ups & downs & Hret & Hu & Hd).
  exists ups, downs. split; [exact Hret|].
  split; [apply Hu | apply Hd]; vm_compute; discriminate.
Defined.

(** X2.  An asset inside its output range, with ramp rates that are not
    negative, offers nothing at the samples up to its latency: [Up] and
    [Down] are zero at every index whose time is at most the latency. *)
Theorem no_ramp_before_latency (a : asset) (time : list Q)
  (Hcall : callable a time)
  (Hlo : Min_Output a <= Output a) (Hhi : Output a <= Max_Output a)
  (Hru : 0 <= Ramp_Up a) (Hrd : 0 <= Ramp_Down a) :
  exists ups downs,
    get_asset_flexibility (Some a) time =
      Ok (mk_flex (Arr ups) (Arr downs) (Some (Output a))) /\
    forall k t, nth_error time k = Some t -> t <= Latency a ->
      exists u d, nth_error ups k = Some u /\ nth_error downs k = Some d /\
                  u == 0 /\ d == 0.
Proof.
  destruct (get_asset_flexibility_nth a time Hcall)
    as (ups & downs & Hret & _ & _ & Hnth).
  exists ups, downs. split; [exact Hret|].
  intros k t Hk Ht.
  destruct (Hnth k t Hk) as (u & d & Hu & Hd & Hu' & Hd' & _).
  exists u, d. split; [exact Hu|]. split; [exact Hd|]. split.
  - destruct Hu' as [->| ->]; [reflexivity|].
    now apply up_at_before_latency.
  - destruct Hd' as [->| ->]; [reflexivity|].
    now apply down_at_before_latency.
Qed.

Lemma no_ramp_before_latency_witness :
  exists ups downs,
    get_asset_flexibility (Some gas_asset) [1 # 2; 1; 3] =
      Ok (mk_flex (Arr ups) (Arr downs) (Some (Output gas_asset))) /\
    exists u d, nth_error ups 1 = Some u /\ nth_error downs 1 = Some d /\
                u == 0 /\ d == 0.
Proof.
  destruct (no_ramp_before_latency gas_asset [1 # 2; 1; 3] I)
    as (ups & downs & Hret & Hzero); try (vm_compute; discriminate).
  exists ups, downs. split; [exact Hret|].
  apply (Hzero 1%nat 1); [reflexivity | vm_compute; discriminate].
Defined.

(** X3.  Without storage and with ramp rates that are not negative, the
    envelope widens with time: between two samples with [t <= t'], [Up]
    does not decrease and [Down] does not increase. *)
Theorem envelope_widens_with_time (a : asset) (time : list Q)
  (Hplain : Charge a = None)
  (Hru : 0 <= Ramp_Up a) (Hrd : 0 <= Ramp_Down a) :
  exists ups downs,
    get_asset_flexibility (Some a) time =
      Ok (mk_flex (Arr ups) (Arr downs) (Some (Output a))) /\
    forall i k t t', nth_error time i = Some t -> nth_error time k = Some t' ->
      t <= t' ->
      exists u u' d d',
        nth_error ups i = Some u /\ nth_error ups k = Some u' /\
        nth_error downs i = Some d /\ nth_error downs k = Some d' /\
        u <= u' /\ d' <= d.
Proof.
  exists (map (up_at a) time), (map (down_at a) time).
  split; [now apply get_asset_flexibility_plain|].
  intros i k t t' Hi Hk Ht.
  exists (up_at a t), (up_at a t'), (down_at a t), (down_at a t').
  rewrite !nth_error_map, Hi, Hk. simpl.
  repeat split; [now apply up_at_monotone | now apply down_at_monotone].
Qed.

Lemma envelope_widens_with_time_witness :
  exists ups downs,
    get_asset_flexibility (Some gas_asset) [1 # 2; 2; 3] =
      Ok (mk_flex (Arr ups) (Arr downs) (Some (Output gas_asset))) /\
    exists u u' d d',
      nth_error ups 1 = Some u /\ nth_error ups 2 = Some u' /\
      nth_error downs 1 = Some d /\ nth_error downs 2 = Some d' /\
      u <= u' /\ d' <= d.
Proof.
  destruct (envelope_widens_with_time gas_asset [1 # 2; 2; 3] eq_refl)
    as (ups & downs & Hret & Hmono); try (vm_compute; discriminate).
  exists ups, downs. split; [exact Hret|].
  apply (Hmono 1%nat 2%nat 2 3);
    [reflexivity | reflexivity | vm_compute; discriminate].
Defined.

(** X4.  Without storage, once the ramp [rampUp * (t - latency)] has
    reached the head room, [Up] is exactly the head room
    [maxOutput - output]; once [- rampDown * (t - latency)] has reached
    [minOutput - output], [Down] is exactly that. *)
Theorem envelope_saturates (a : asset) (time : list Q)
  (Hplain : Charge a = None) :
  exists ups downs,
    get_asset_flexibility (Some a) time =
      Ok (mk_flex (Arr ups) (Arr downs) (Some (Output a))) /\
    forall k t, nth_error time k = Some t ->
      exists u d,
        nth_error ups k = Some u /\ nth_error downs k = Some d /\
        (Max_Output a - Output a <= Ramp_Up a * (t - Latency a) ->
         u == Max_Output a - Output a) /\
        (- Ramp_Down a * (t - Latency a) <= Min_Output a - Output a ->
         d == Min_Output a - Output a).
Proof.
  exists (map (up_at a) time), (map (down_at a) time).
  split; [now apply get_asset_flexibility_plain|].
  intros k t Hk. exists (up_at a t), (down_at a t).
  rewrite !nth_error_map, Hk. simpl.
  repeat split; [apply up_at_saturated | apply down_at_saturated].
Qed.

Lemma envelope_saturates_witness :
  exists ups downs,
    get_asset_flexibility (Some gas_asset) [1 # 2; 2; 5] =
      Ok (mk_flex (Arr ups) (Arr downs) (Some (Output gas_asset))) /\
    exists u, nth_error ups 2 = Some u /\ u == 3.
Proof.
  destruct (envelope_saturates gas_asset [1 # 2; 2; 5] eq_refl)
    as (ups & downs & Hret & Hsat).
  exists ups, downs. split; [exact Hret|].
  destruct (Hsat 2%nat 5 eq_refl) as (u & d & Hu & _ & Hup & _).
  exists u. split; [exact Hu|].
  rewrite Hup; [reflexivity | vm_compute; discriminate].
Defined.

(** X5.  The energy limit only takes away: every entry of the envelope of
    an asset is zero or the entry that the same asset without its storage
    keys has at that index, so that inside the output range
    [0 <= Up <= Up'] and [Down' <= Down <= 0]. *)
Theorem energy_limit_only_reduces (a : asset) (time : list Q)
  (Hcall : callable a time) :
  exists ups downs ups0 downs0,
    get_asset_flexibility (Some a) time =
      Ok (mk_flex (Arr ups) (Arr downs) (Some (Output a))) /\
    get_asset_flexibility (Some (without_storage a)) time =
      Ok (mk_flex (Arr ups0) (Arr downs0) (Some (Output a))) /\
    forall k u0 d0, nth_error ups0 k = Some u0 -> nth_error downs0 k = Some d0 ->
      exists u d,
        nth_error ups k = Some u /\ nth_error downs k = Some d /\
        (u = 0 \/ u = u0) /\ (d = 0 \/ d = d0) /\
        (Output a <= Max_Output a -> 0 <= u /\ u <= u0) /\
        (Min_Output a <= Output a -> d0 <= d /\ d <= 0).
Proof.
  destruct (get_asset_flexibility_nth a time Hcall)
    as (ups & downs & Hret & _ & _ & Hnth).
  exists ups, downs, (map (up_at a) time), (map (down_at a) time).
  split; [exact Hret|].
  split; [exact (get_asset_flexibility_plain (without_storage a) time
                   eq_refl)|].
  intros k u0 d0 Hu0 Hd0.
  rewrite nth_error_map in Hu0, Hd0.
  destruct (nth_error time k) as [t|] eqn:Hk; [|discriminate].
  simpl in Hu0, Hd0. injection Hu0 as <-. injection Hd0 as <-.
  destruct (Hnth k t Hk) as (u & d & Hu & Hd & Hu' & Hd' & _).
  exists u, d. split; [exact Hu|]. split; [exact Hd|].
  split; [exact Hu'|]. split; [exact Hd'|]. split.
  - intros Hhi. pose proof (up_at_nonneg a t Hhi).
    destruct Hu' as [->| ->]; lra.
  - intros Hlo. pose proof (down_at_nonpos a t Hlo).
    destruct Hd' as [->| ->]; lra.
Qed.

Lemma energy_limit_only_reduces_witness :
  let time := [1 # 10; 2 # 10; 3 # 10; 4 # 10] in
  callable small_battery time /\
  exists ups downs ups0 downs0,
    get_asset_flexibility (Some small_battery) time =
      Ok (mk_flex (Arr ups) (Arr downs) (Some 0)) /\
    get_asset_flexibility (Some (without_storage small_battery)) time =
      Ok (mk_flex (Arr ups0) (Arr downs0) (Some 0)) /\
    nth_error ups 3 = Some 0 /\ nth_error ups0 3 = Some (1 # 2).
Proof.
  cbv zeta.
  assert (Hcall : callable small_battery [1 # 10; 2 # 10; 3 # 10; 4 # 10])
    by (unfold callable; simpl; split; [discriminate | lia]).
  split; [exact Hcall|].
  destruct (energy_limit_only_reduces small_battery
              [1 # 10; 2 # 10; 3 # 10; 4 # 10] Hcall)
    as (ups & downs & ups0 & downs0 & Hret & Hret0 & _).
  exists ups, downs, ups0, downs0.
  split; [exact Hret|]. split; [exact Hret0|].
  vm_compute in Hret, Hret0.
  injection Hret as <- _. injection Hret0 as <- _.
  split; reflexivity.
Defined.


Lemma inject_nat_succ (n : nat) :
  inject_Z (Z.of_nat (S n)) == inject_Z (Z.of_nat n) + 1.
Proof. rewrite Nat2Z.inj_succ. unfold Z.succ. now rewrite inject_Z_plus. Qed.

Lemma inject_nat_nonneg (n : nat) : 0 <= inject_Z (Z.of_nat n).
Proof.
  change 0 with (inject_Z 0). rewrite <- Zle_Qle. apply Nat2Z.is_nonneg.
Qed.





(** X7.  A storage that is full cannot ramp down: with a charge of 100 the
    budget [energy_to_full] is zero, and on an increasing grid, with
    [minOutput <= output], every entry of [Down] is zero. *)
Theorem full_charge_limits_down
  (a : asset) (charge energy t0 t1 : Q) (rest : list Q)
  (Hc : Charge a = Some charge) (Hfull : charge == 100)
  (He : Energy a = Some energy)
  (Hgrid : t0 < t1) (Hlo : Min_Output a <= Output a) :
  exists ups downs,
    get_asset_flexibility (Some a) (t0 :: t1 :: rest) =
      Ok (mk_flex (Arr ups) (Arr downs) (Some (Output a))) /\
    forall d, In d downs -> d == 0.
Proof.
  set (time := t0 :: t1 :: rest). set (dt := t1 - t0).
  set (energy_to_empty := charge * energy / 100).
  set (pre_down := map (down_at a) time).
  assert (Hfull0 : energy - energy_to_empty == 0)
    by (unfold energy_to_empty; rewrite Hfull; field).
  eexists. eexists. split.
  { apply (get_asset_flexibility_storage a charge energy t0 t1 rest Hc He). }
  fold time dt energy_to_empty pre_down.
  intros d Hd. apply In_nth_error in Hd. destruct Hd as [k Hk].
  assert (Hlen : (k < length pre_down)%nat).
  { rewrite <- (limit_down_length dt (energy - energy_to_empty)).
    apply nth_error_Some. congruence. }
  destruct (nth_error_in_range _ _ Hlen) as [v Hv].
  destruct (cumsum_nth_exists _ _ _ Hv) as [c Hck].
  assert (Hsign : signed (- (1)) pre_down).
  { apply signed_nonpos. intros x Hx. apply in_map_iff in Hx.
    destruct Hx as (t & <- & _). now apply down_at_nonpos. }
  pose proof (cumsum_last (- (1)) pre_down Hsign k c v Hck Hv) as Hlast.
  assert (Hv0 : 0 <= - (1) * v)
    by (apply Hsign; eapply nth_error_In; eauto).
  rewrite (limit_down_nth dt (energy - energy_to_empty) pre_down k c v
             Hck Hv) in Hk.
  injection Hk as <-.
  destruct (Qlt_bool_reflect (energy - energy_to_empty) (- c * dt))
    as [Hover|Hunder]; unfold Qgt_bool.
  - destruct (Qlt_bool_reflect (energy - energy_to_empty) (- c * dt));
      [reflexivity | contradiction].
  - destruct (Qlt_bool_reflect (energy - energy_to_empty) (- c * dt));
      [contradiction|].
    assert (Hdt : 0 < dt) by (unfold dt; lra).
    assert (- c <= 0) by nra. lra.
Qed.

Lemma full_charge_limits_down_witness :
  exists ups downs,
    get_asset_flexibility
      (Some (mk_asset 0 (1 # 2) (- (1 # 2)) (1 # 10) 50 50
                      (Some 100) (Some 1000)))
      [1 # 10; 2 # 10; 3 # 10] =
      Ok (mk_flex (Arr ups) (Arr downs) (Some 0)) /\
    forall d, In d downs -> d == 0.
Proof.
  apply (full_charge_limits_down
           (mk_asset 0 (1 # 2) (- (1 # 2)) (1 # 10) 50 50
                     (Some 100) (Some 1000))
           100 1000 (1 # 10) (2 # 10) [3 # 10] eq_refl (Qeq_refl 100)
           eq_refl); vm_compute; [reflexivity | discriminate].
Defined.

(** X8.  The two ways the call for an asset fails: [KeyError] exactly when
    the dictionary has ['Charge'] but no ['Energy'], whatever the time
    grid; [IndexError] exactly when it has both and the grid has fewer than
    two samples. *)
Theorem asset_call_errors (a : asset) (time : list Q) :
  (get_asset_flexibility (Some a) time = Raise KeyError <->
   Charge a <> None /\ Energy a = None) /\
  (get_asset_flexibility (Some a) time = Raise IndexError <->
   Charge a <> None /\ Energy a <> None /\ (length time < 2)%nat).
Proof.
  unfold get_asset_flexibility.
  destruct (Charge a) as [charge|]; [|split; split;
    [discriminate | intros [H _]; congruence
    | discriminate | intros [H _]; congruence]].
  destruct (Energy a) as [energy|]; simpl.
  - destruct time as [|t0 [|t1 rest]]; simpl; split; split;
      try discriminate; try (intros (_ & H & _); congruence);
      try (intros (_ & _ & H); lia); try (intros [_ H]; congruence);
      intros _; repeat split; try discriminate; lia.
  - split; split; try discriminate; try (intros (_ & H & _); congruence);
      intros _; split; [discriminate | reflexivity].
Qed.

(** ** More on the disturbance curve *)

(** The curve entry by entry, over the common denominator [freq^2 * t]. *)
Lemma disturbance_curve_nth (sys : system) (time : list Q) :
  ~ freq sys == 0 -> (forall t, In t time -> ~ t == 0) ->
  exists lo up,
    get_power_disturbance_curve time sys = Ok (mk_curve lo up) /\
    length lo = length time /\ length up = length time /\
    forall k t, nth_error time k = Some t ->
      exists u l,
        nth_error up k = Some u /\ nth_error lo k = Some l /\
        u == inertia sys * (freq sys ^ 2 - freq_min sys ^ 2)
             / (freq sys ^ 2 * t) /\
        l == - (inertia sys * (freq_max sys ^ 2 - freq sys ^ 2))
             / (freq sys ^ 2 * t).
Proof.
  intros Hfreq Htime. eexists. eexists. split.
  { apply (get_power_disturbance_curve_ok sys time Hfreq Htime). }
  rewrite !length_map. split; [reflexivity|]. split; [reflexivity|].
  intros k t Hk.
  assert (Ht : ~ t == 0) by (apply Htime; eapply nth_error_In; eauto).
  pose proof pi_nonzero as Hpi.
  eexists. eexists. rewrite !nth_error_map, Hk. cbn [option_map].
  split; [reflexivity|]. split; [reflexivity|].
  split; field; auto.
Qed.

Lemma Qdiv_nonneg (x y : Q) : 0 <= x -> 0 < y -> 0 <= x / y.
Proof.
  intros Hx Hy. apply Qle_shift_div_l; [exact Hy | lra].
Qed.

Lemma Qdiv_antitone (x t t' : Q) :
  0 <= x -> 0 < t -> t <= t' -> x / t' <= x / t.
Proof.
  intros Hx Ht Htt.
  assert (Ht' : 0 < t') by lra.
  apply Qle_shift_div_l; [exact Ht|].
  setoid_replace (x / t' * t) with (x * t / t') by (field; lra).
  apply Qle_shift_div_r; [exact Ht'|]. nra.
Qed.

(** X9.  The call for the curve raises [ZeroDivisionError] exactly when the
    system frequency is zero, whatever the time grid. *)
Theorem zero_frequency_divides_by_zero (sys : system) (time : list Q) :
  get_power_disturbance_curve time sys = Raise ZeroDivisionError <->
  freq sys == 0.
Proof.
  unfold get_power_disturbance_curve, py_div. split.
  - destruct (Qeq_bool ((4 * np.pi * freq sys / 2) ^ 2) 0) eqn:E.
    + intros _. apply Qeq_bool_iff in E.
      destruct (Qeq_dec (freq sys) 0) as [H|H]; [exact H|].
      now apply omega_nonzero in H.
    + simpl. unfold np_rdiv.
      destruct (existsb _ time); simpl; discriminate.
  - intros H.
    assert (E : (4 * np.pi * freq sys / 2) ^ 2 == 0)
      by (rewrite H; vm_compute; reflexivity).
    apply Qeq_bool_iff in E. now rewrite E.
Qed.

(** The band of the curve around zero, and how it narrows with time. *)
Lemma disturbance_curve_band (sys : system) (time : list Q)
  (HK : 0 <= inertia sys)
  (Hmin : 0 < freq_min sys) (Hfreq : freq_min sys <= freq sys)
  (Hmax : freq sys <= freq_max sys)
  (Htime : forall t, In t time -> 0 < t) :
  exists lo up,
    get_power_disturbance_curve time sys = Ok (mk_curve lo up) /\
    length lo = length time /\ length up = length time /\
    forall i k t t', nth_error time i = Some t -> nth_error time k = Some t' ->
      t <= t' ->
      exists u u' l l',
        nth_error up i = Some u /\ nth_error up k = Some u' /\
        nth_error lo i = Some l /\ nth_error lo k = Some l' /\
        0 <= u' /\ u' <= u /\ l <= l' /\ l' <= 0.
Proof.
  assert (Hf0 : ~ freq sys == 0) by lra.
  assert (Ht0 : forall t, In t time -> ~ t == 0)
    by (intros t Ht; apply Htime in Ht; lra).
  destruct (disturbance_curve_nth sys time Hf0 Ht0)
    as (lo & up & Hret & Hllo & Hlup & Hnth).
  exists lo, up. split; [exact Hret|].
  split; [exact Hllo|]. split; [exact Hlup|].
  intros i k t t' Hi Hk Htt.
  destruct (Hnth i t Hi) as (u & l & Hu & Hl & Eu & El).
  destruct (Hnth k t' Hk) as (u' & l' & Hu' & Hl' & Eu' & El').
  assert (Ht : 0 < t) by (apply Htime; eapply nth_error_In; eauto).
  assert (Ht' : 0 < t') by lra.
  set (K := inertia sys) in *. set (f := freq sys) in *.
  set (fm := freq_min sys) in *. set (fM := freq_max sys) in *.
  assert (Hf2 : 0 < f ^ 2) by (change (0 < f * f); nra).
  assert (Hdown : 0 <= K * (f ^ 2 - fm ^ 2)).
  { apply Qmult_le_0_compat; [exact HK|].
    setoid_replace (f ^ 2 - fm ^ 2) with ((f - fm) * (f + fm)) by ring.
    apply Qmult_le_0_compat; lra. }
  assert (Hupw : 0 <= K * (fM ^ 2 - f ^ 2)).
  { apply Qmult_le_0_compat; [exact HK|].
    setoid_replace (fM ^ 2 - f ^ 2) with ((fM - f) * (fM + f)) by ring.
    apply Qmult_le_0_compat; lra. }
  assert (Hden : forall x, 0 < x -> 0 < f ^ 2 * x)
    by (intros x Hx; apply Qmult_lt_0_compat; assumption).
  assert (Hle : f ^ 2 * t <= f ^ 2 * t')
    by (rewrite !(Qmult_comm (f ^ 2)); apply Qmult_le_compat_r; lra).
  pose proof (Qdiv_nonneg _ _ Hdown (Hden t' Ht')) as Hu0.
  pose proof (Qdiv_nonneg _ _ Hupw (Hden t' Ht')) as Hl0.
  pose proof (Qdiv_antitone _ _ _ Hdown (Hden t Ht) Hle) as Hud.
  pose proof (Qdiv_antitone _ _ _ Hupw (Hden t Ht) Hle) as Hld.
  exists u, u', l, l'.
  repeat (split; [assumption|]).
  rewrite Eu, Eu', El, El'.
  setoid_replace (- (K * (fM ^ 2 - f ^ 2)) / (f ^ 2 * t))
    with (- (K * (fM ^ 2 - f ^ 2) / (f ^ 2 * t)))
    by (field; split; [lra | intros E; rewrite E in Hf2; lra]).
  setoid_replace (- (K * (fM ^ 2 - f ^ 2)) / (f ^ 2 * t'))
    with (- (K * (fM ^ 2 - f ^ 2) / (f ^ 2 * t')))
    by (field; split; [lra | intros E; rewrite E in Hf2; lra]).
  repeat split; lra.
Qed.



(** The curve of a system without inertia. *)
Lemma disturbance_curve_without_inertia (sys : system) (time : list Q)
  (HK : inertia sys == 0)
  (Hfreq : ~ freq sys == 0) (Htime : forall t, In t time -> ~ t == 0) :
  exists lo up,
    get_power_disturbance_curve time sys = Ok (mk_curve lo up) /\
    length lo = length time /\ length up = length time /\
    (forall u, In u up -> u == 0) /\ (forall l, In l lo -> l == 0).
Proof.
  destruct (disturbance_curve_nth sys time Hfreq Htime)
    as (lo & up & Hret & Hlo & Hup & Hnth).
  exists lo, up. split; [exact Hret|].
  split; [exact Hlo|]. split; [exact Hup|].
  split.
  - intros u Hu. apply In_nth_error in Hu. destruct Hu as [k Hk].
    assert (Hlt : (k < length time)%nat)
      by (rewrite <- Hup; apply nth_error_Some; congruence).
    destruct (nth_error_in_range _ _ Hlt) as [t Ht].
    destruct (Hnth k t Ht) as (u' & l' & Hu' & _ & Eu & _).
    rewrite Hk in Hu'. injection Hu' as <-.
    rewrite Eu, HK. field. split; [|exact Hfreq].
    apply Htime. eapply nth_error_In; eauto.
  - intros l Hl. apply In_nth_error in Hl. destruct Hl as [k Hk].
    assert (Hlt : (k < length time)%nat)
      by (rewrite <- Hlo; apply nth_error_Some; congruence).
    destruct (nth_error_in_range _ _ Hlt) as [t Ht].
    destruct (Hnth k t Ht) as (u' & l' & _ & Hl' & _ & El).
    rewrite Hk in Hl'. injection Hl' as <-.
    rewrite El, HK. field. split; [|exact Hfreq].
    apply Htime. eapply nth_error_In; eauto.
Qed.

(** X11.  A system without inertia tolerates nothing: with an inertia of
    zero every entry of the curve is zero. *)
Theorem no_inertia_no_tolerance (sys : system) (time : list Q)
  (HK : inertia sys == 0)
  (Hfreq : ~ freq sys == 0) (Htime : forall t, In t time -> ~ t == 0) :
  exists lo up,
    get_power_disturbance_curve time sys = Ok (mk_curve lo up) /\
    length lo = length time /\ length up = length time /\
    (forall u, In u up -> u == 0) /\ (forall l, In l lo -> l == 0).
Proof.
  exact (disturbance_curve_without_inertia sys time HK Hfreq Htime).
Qed.

Lemma no_inertia_no_tolerance_witness :
  exists lo up,
    get_power_disturbance_curve [1 # 10; 1; 5] (mk_system 0 60 59 61) =
      Ok (mk_curve lo up) /\
    (forall u, In u up -> u == 0) /\ (forall l, In l lo -> l == 0).
Proof.
  assert (Htime : forall t, In t [1 # 10; 1; 5] -> ~ t == 0).
  { intros t Ht. simpl in Ht.
    repeat (destruct Ht as [<-|Ht]; [vm_compute; discriminate|]).
    contradiction. }
  destruct (no_inertia_no_tolerance (mk_system 0 60 59 61) [1 # 10; 1; 5])
    as (lo & up & Hret & _ & _ & Hu & Hl);
    try exact Htime; try (vm_compute; (reflexivity || discriminate)).
  exists lo, up. auto.
Defined.

(** ** More on the aggregation *)

Lemma nd_add_fits (n : nat) (v w : ndval) :
  nd_fits n v -> nd_fits n w ->
  exists r, nd_add v w = Ok r /\ nd_fits n r /\
            forall k, nd_nth r k = opt_add (nd_nth v k) (nd_nth w k).
Proof.
  destruct v as [x|xs], w as [y|ys]; simpl; intros Hv Hw.
  - eexists. split; [reflexivity|]. split; [exact I|]. reflexivity.
  - eexists. split; [reflexivity|]. simpl. rewrite length_map.
    split; [exact Hw|]. intros k. rewrite nth_error_map.
    now destruct (nth_error ys k).
  - eexists. split; [reflexivity|]. simpl. rewrite length_map.
    split; [exact Hv|]. intros k. rewrite nth_error_map.
    now destruct (nth_error xs k).
  - unfold np.broadcast. rewrite Hv, Hw, Nat.eqb_refl. simpl.
    eexists. split; [reflexivity|]. simpl.
    rewrite length_map, length_combine, Hv, Hw, Nat.min_id.
    split; [reflexivity|]. intros k.
    rewrite nth_error_map, nth_error_combine.
    destruct (nth_error xs k), (nth_error ys k); reflexivity.
Qed.

Lemma sum5_fits (n : nat) (a b c d e : ndval) :
  nd_fits n a -> nd_fits n b -> nd_fits n c -> nd_fits n d -> nd_fits n e ->
  exists r, sum5 a b c d e = Ok r /\ nd_fits n r /\
    forall k, nd_nth r k =
              opt_add (opt_add (opt_add (opt_add (nd_nth a k) (nd_nth b k))
                                        (nd_nth c k)) (nd_nth d k))
                      (nd_nth e k).
Proof.
  intros Ha Hb Hc Hd He. unfold sum5.
  destruct (nd_add_fits n a b Ha Hb) as (ab & -> & Hab & Eab). simpl.
  destruct (nd_add_fits n ab c Hab Hc) as (abc & -> & Habc & Eabc). simpl.
  destruct (nd_add_fits n abc d Habc Hd) as (abcd & -> & Habcd & Eabcd).
  simpl.
  destruct (nd_add_fits n abcd e Habcd He) as (r & -> & Hr & Er).
  exists r. split; [reflexivity|]. split; [exact Hr|].
  intros k. now rewrite Er, Eabcd, Eabc, Eab.
Qed.

(** The aggregation over envelopes of one grid, entry by entry. *)
Lemma aggregation_entrywise (n : nat) (f1 f2 f3 f4 f5 : flex)
  (H1 : flex_fits n f1) (H2 : flex_fits n f2) (H3 : flex_fits n f3)
  (H4 : flex_fits n f4) (H5 : flex_fits n f5) :
  exists g,
    flexibility_aggreagation f1 f2 f3 f4 f5 = Ok g /\
    flex_fits n g /\ flex_Output g = None /\
    forall k,
      nd_nth (Up g) k =
        opt_add (opt_add (opt_add (opt_add (nd_nth (Up f1) k)
                                           (nd_nth (Up f2) k))
                                  (nd_nth (Up f3) k)) (nd_nth (Up f4) k))
                (nd_nth (Up f5) k) /\
      nd_nth (Down g) k =
        opt_add (opt_add (opt_add (opt_add (nd_nth (Down f1) k)
                                           (nd_nth (Down f2) k))
                                  (nd_nth (Down f3) k)) (nd_nth (Down f4) k))
                (nd_nth (Down f5) k).
Proof.
  destruct H1 as [U1 D1], H2 as [U2 D2], H3 as [U3 D3], H4 as [U4 D4],
           H5 as [U5 D5].
  destruct (sum5_fits n _ _ _ _ _ U1 U2 U3 U4 U5) as (u & Hu & Hfu & Eu).
  destruct (sum5_fits n _ _ _ _ _ D1 D2 D3 D4 D5) as (d & Hd & Hfd & Ed).
  exists (mk_flex u d None).
  unfold flexibility_aggreagation. rewrite Hu, Hd. simpl.
  split; [reflexivity|]. split; [split; assumption|].
  split; [reflexivity|]. intros k. split; [apply Eu | apply Ed].
Qed.

(** X12.  Over envelopes of one grid (each [Up] and [Down] a scalar or an
    array of [n] entries) the aggregation never raises: it returns an
    envelope over the same grid, without an ['Output'] key, whose entry at
    every index is the sum of the five entries at that index, added from
    left to right. *)
Theorem aggregation_sums_entrywise (n : nat) (f1 f2 f3 f4 f5 : flex)
  (H1 : flex_fits n f1) (H2 : flex_fits n f2) (H3 : flex_fits n f3)
  (H4 : flex_fits n f4) (H5 : flex_fits n f5) :
  exists g,
    flexibility_aggreagation f1 f2 f3 f4 f5 = Ok g /\
    flex_fits n g /\ flex_Output g = None /\
    forall k,
      nd_nth (Up g) k =
        opt_add (opt_add (opt_add (opt_add (nd_nth (Up f1) k)
                                           (nd_nth (Up f2) k))
                                  (nd_nth (Up f3) k)) (nd_nth (Up f4) k))
                (nd_nth (Up f5) k) /\
      nd_nth (Down g) k =
        opt_add (opt_add (opt_add (opt_add (nd_nth (Down f1) k)
                                           (nd_nth (Down f2) k))
                                  (nd_nth (Down f3) k)) (nd_nth (Down f4) k))
                (nd_nth (Down f5) k).
Proof.
  exact (aggregation_entrywise n f1 f2 f3 f4 f5 H1 H2 H3 H4 H5).
Qed.

Lemma aggregation_sums_entrywise_witness :
  exists g,
    flexibility_aggreagation crossing_flex zero_flex flat_flex zero_flex
                             crossing_flex = Ok g /\
    nd_nth (Up g) 1 = Some (3 + 0 + 0 + 0 + 3).
Proof.
  destruct (aggregation_sums_entrywise 3 crossing_flex zero_flex flat_flex
              zero_flex crossing_flex)
    as (g & Hret & _ & _ & Hsum);
    try (split; simpl; (reflexivity || exact I)).
  exists g. split; [exact Hret|].
  rewrite (proj1 (Hsum 1%nat)). reflexivity.
Defined.














Lemma nd_add_proper_arrays (v w : ndval) :
  proper_array v -> proper_array w ->
  (nd_len v = nd_len w /\
   exists r, nd_add v w = Ok r /\ proper_array r /\ nd_len r = nd_len v) \/
  (nd_len v <> nd_len w /\ nd_add v w = Raise ValueError).
Proof.
  destruct v as [x|xs], w as [y|ys]; simpl; try contradiction.
  intros Hx Hy. unfold np.broadcast.
  destruct (Nat.eqb (length xs) (length ys)) eqn:E.
  - apply Nat.eqb_eq in E. left. split; [now rewrite E|].
    eexists. split; [reflexivity|]. simpl.
    rewrite length_map, length_combine, <- E, Nat.min_id. auto.
  - apply Nat.eqb_neq in E. right. split; [congruence|].
    destruct xs as [|x [|x' xs]], ys as [|y [|y' ys]]; simpl in *;
      congruence.
Qed.

Lemma sum5_proper_arrays (a b c d e : ndval) :
  proper_array a -> proper_array b -> proper_array c -> proper_array d ->
  proper_array e ->
  let same := nd_len a = nd_len b /\ nd_len a = nd_len c /\
              nd_len a = nd_len d /\ nd_len a = nd_len e in
  (same /\ exists r, sum5 a b c d e = Ok r /\ nd_len r = nd_len a) \/
  (~ same /\ sum5 a b c d e = Raise ValueError).
Proof.
  intros Ha Hb Hc Hd He same. unfold same, sum5.
  destruct (nd_add_proper_arrays a b Ha Hb)
    as [(E1 & ab & -> & Hab & Lab)|[N1 ->]]; simpl; [|right; tauto].
  destruct (nd_add_proper_arrays ab c Hab Hc)
    as [(E2 & abc & -> & Habc & Labc)|[N2 ->]]; simpl;
    [|right; split; [intros (_ & H & _); congruence | reflexivity]].
  destruct (nd_add_proper_arrays abc d Habc Hd)
    as [(E3 & abcd & -> & Habcd & Labcd)|[N3 ->]]; simpl;
    [|right; split; [intros (_ & _ & H & _); congruence | reflexivity]].
  destruct (nd_add_proper_arrays abcd e Habcd He)
    as [(E4 & r & -> & Hr & Lr)|[N4 ->]]; simpl;
    [|right; split; [intros (_ & _ & _ & H); congruence | reflexivity]].
  left. split; [repeat split; congruence|].
  exists r. split; [reflexivity | congruence].
Qed.

(** X14.  Arrays of different lengths are rejected, never cut or padded:
    over five envelopes whose [Up] and [Down] are arrays of a length other
    than one, the aggregation raises [ValueError] exactly when the five
    [Up] arrays are not of one length or the five [Down] arrays are not;
    otherwise it returns arrays of that length. *)
Theorem aggregation_rejects_mismatch (f1 f2 f3 f4 f5 : flex)
  (Harr : Forall (fun f => proper_array (Up f) /\ proper_array (Down f))
                 [f1; f2; f3; f4; f5]) :
  let same_up := nd_len (Up f1) = nd_len (Up f2) /\
                 nd_len (Up f1) = nd_len (Up f3) /\
                 nd_len (Up f1) = nd_len (Up f4) /\
                 nd_len (Up f1) = nd_len (Up f5) in
  let same_down := nd_len (Down f1) = nd_len (Down f2) /\
                   nd_len (Down f1) = nd_len (Down f3) /\
                   nd_len (Down f1) = nd_len (Down f4) /\
                   nd_len (Down f1) = nd_len (Down f5) in
  (flexibility_aggreagation f1 f2 f3 f4 f5 = Raise ValueError <->
   ~ (same_up /\ same_down)) /\
  (same_up /\ same_down ->
   exists g, flexibility_aggreagation f1 f2 f3 f4 f5 = Ok g /\
             nd_len (Up g) = nd_len (Up f1) /\
             nd_len (Down g) = nd_len (Down f1)).
Proof.
  intros same_up same_down.
  assert (H : forall f, In f [f1; f2; f3; f4; f5] ->
                        proper_array (Up f) /\ proper_array (Down f))
    by (now apply Forall_forall).
  assert (H1 := H f1 ltac:(simpl; tauto)).
  assert (H2 := H f2 ltac:(simpl; tauto)).
  assert (H3 := H f3 ltac:(simpl; tauto)).
  assert (H4 := H f4 ltac:(simpl; tauto)).
  assert (H5 := H f5 ltac:(simpl; tauto)).
  pose proof (sum5_proper_arrays (Up f1) (Up f2) (Up f3) (Up f4) (Up f5)
                (proj1 H1) (proj1 H2) (proj1 H3) (proj1 H4) (proj1 H5))
    as HU.
  pose proof (sum5_proper_arrays (Down f1) (Down f2) (Down f3) (Down f4)
                (Down f5)
                (proj2 H1) (proj2 H2) (proj2 H3) (proj2 H4) (proj2 H5))
    as HD.
  cbv zeta in HU, HD. fold same_up in HU. fold same_down in HD.
  unfold flexibility_aggreagation.
  destruct HU as [(Su & u & -> & Lu)|[Nu ->]]; simpl.
  - destruct HD as [(Sd & d & -> & Ld)|[Nd ->]]; simpl.
    + split; [split; [discriminate | tauto]|].
      intros _. eexists. split; [reflexivity|]. simpl. auto.
    + split; [split; [tauto | reflexivity]|]. tauto.
  - split; [split; [tauto | reflexivity]|]. tauto.
Qed.

Lemma aggregation_rejects_mismatch_witness :
  flexibility_aggreagation crossing_flex crossing_flex crossing_flex
    crossing_flex (mk_flex (Arr [0; 1]) (Arr [0; - (1)]) None) =
  Raise ValueError.
Proof.
  apply (proj1 (aggregation_rejects_mismatch crossing_flex crossing_flex
                  crossing_flex crossing_flex
                  (mk_flex (Arr [0; 1]) (Arr [0; - (1)]) None)
                  ltac:(repeat constructor; simpl; discriminate))).
  intros [(_ & _ & _ & H) _]. discriminate.
Defined.

(** ** The functions together *)

(** The envelope of a usable asset: over the grid, between zero and the
    room of the asset. *)
Lemma asset_flex_bounded (time : list Q) (a : option asset) :
  usable time a ->
  exists f,
    get_asset_flexibility a time = Ok f /\
    flex_fits (length time) f /\
    forall k,
      (forall e, nd_nth (Up f) k = Some e -> 0 <= e /\ e <= headroom a) /\
      (forall e, nd_nth (Down f) k = Some e -> footroom a <= e /\ e <= 0).
Proof.
  destruct a as [a|]; simpl.
  - intros (Hcall & Hlo & Hhi).
    destruct (get_asset_flexibility_nth a time Hcall)
      as (ups & downs & Hret & Hlu & Hld & Hnth).
    change (get_asset_flexibility (Some a) time =
            Ok (mk_flex (Arr ups) (Arr downs) (Some (Output a)))) in Hret.
    eexists. split; [exact Hret|]. split; [split; assumption|].
    intros k. simpl. split; intros e He.
    + assert (Hk : (k < length time)%nat)
        by (rewrite <- Hlu; apply nth_error_Some; congruence).
      destruct (nth_error_in_range _ _ Hk) as [t Ht].
      destruct (Hnth k t Ht) as (u & d & Hu & _ & Hu' & _).
      rewrite He in Hu. injection Hu as <-.
      pose proof (up_at_le a t). pose proof (up_at_nonneg a t Hhi).
      destruct Hu' as [->| ->]; lra.
    + assert (Hk : (k < length time)%nat)
        by (rewrite <- Hld; apply nth_error_Some; congruence).
      destruct (nth_error_in_range _ _ Hk) as [t Ht].
      destruct (Hnth k t Ht) as (u & d & _ & Hd & _ & Hd' & _).
      rewrite He in Hd. injection Hd as <-.
      pose proof (down_at_ge a t). pose proof (down_at_nonpos a t Hlo).
      destruct Hd' as [->| ->]; lra.
  - intros _. eexists. split; [reflexivity|]. split; [split; exact I|].
    intros k. simpl. split; intros e [= <-]; lra.
Qed.

Lemma opt_add_some (o o' : option Q) (e : Q) :
  opt_add o o' = Some e -> exists x y, o = Some x /\ o' = Some y /\ e = x + y.
Proof.
  destruct o as [x|], o' as [y|]; simpl; try discriminate.
  intros [= <-]. eauto.
Qed.

(** The system envelope of a usable fleet: it is returned, lies over the
    grid, and stays between zero and the room of the fleet. *)
Lemma system_flexibility_bounded
  (a1 a2 a3 a4 a5 : option asset) (time : list Q) :
  Forall (usable time) [a1; a2; a3; a4; a5] ->
  exists g,
    system_flexibility a1 a2 a3 a4 a5 time = Ok g /\
    flex_fits (length time) g /\
    forall k,
      (forall e, nd_nth (Up g) k = Some e ->
         0 <= e /\
         e <= headroom a1 + headroom a2 + headroom a3 + headroom a4
              + headroom a5) /\
      (forall e, nd_nth (Down g) k = Some e ->
         footroom a1 + footroom a2 + footroom a3 + footroom a4
         + footroom a5 <= e /\ e <= 0).
Proof.
  intros Hall.
  assert (H : forall a, In a [a1; a2; a3; a4; a5] -> usable time a)
    by (now apply Forall_forall).
  destruct (asset_flex_bounded time a1) as (f1 & R1 & F1 & B1);
    [apply H; simpl; tauto|].
  destruct (asset_flex_bounded time a2) as (f2 & R2 & F2 & B2);
    [apply H; simpl; tauto|].
  destruct (asset_flex_bounded time a3) as (f3 & R3 & F3 & B3);
    [apply H; simpl; tauto|].
  destruct (asset_flex_bounded time a4) as (f4 & R4 & F4 & B4);
    [apply H; simpl; tauto|].
  destruct (asset_flex_bounded time a5) as (f5 & R5 & F5 & B5);
    [apply H; simpl; tauto|].
  destruct (aggregation_entrywise (length time) f1 f2 f3 f4 f5
              F1 F2 F3 F4 F5) as (g & Hg & Fg & _ & Eg).
  exists g. unfold system_flexibility. rewrite R1, R2, R3, R4, R5. simpl.
  split; [exact Hg|]. split; [exact Fg|].
  intros k. destruct (Eg k) as [Eu Ed]. split; intros e He.
  - rewrite Eu in He.
    apply opt_add_some in He. destruct He as (s4 & e5 & He & H5 & ->).
    apply opt_add_some in He. destruct He as (s3 & e4 & He & H4 & ->).
    apply opt_add_some in He. destruct He as (s2 & e3 & He & H3 & ->).
    apply opt_add_some in He. destruct He as (e1 & e2 & H1 & H2 & ->).
    apply (proj1 (B1 k)) in H1. apply (proj1 (B2 k)) in H2.
    apply (proj1 (B3 k)) in H3. apply (proj1 (B4 k)) in H4.
    apply (proj1 (B5 k)) in H5. lra.
  - rewrite Ed in He.
    apply opt_add_some in He. destruct He as (s4 & e5 & He & H5 & ->).
    apply opt_add_some in He. destruct He as (s3 & e4 & He & H4 & ->).
    apply opt_add_some in He. destruct He as (s2 & e3 & He & H3 & ->).
    apply opt_add_some in He. destruct He as (e1 & e2 & H1 & H2 & ->).
    apply (proj2 (B1 k)) in H1. apply (proj2 (B2 k)) in H2.
    apply (proj2 (B3 k)) in H3. apply (proj2 (B4 k)) in H4.
    apply (proj2 (B5 k)) in H5. lra.
Qed.

(** X15.  For a fleet of usable assets (each absent, or callable with its
    output between its bounds) over one time grid, the five calls and the
    aggregation return the system envelope, and at every index
    [0 <= Up <= ] the sum of the head rooms and the sum of the rooms
    downwards [<= Down <= 0]. *)
Theorem system_envelope_within_room
  (a1 a2 a3 a4 a5 : option asset) (time : list Q)
  (Hfleet : Forall (usable time) [a1; a2; a3; a4; a5]) :
  exists g,
    system_flexibility a1 a2 a3 a4 a5 time = Ok g /\
    flex_fits (length time) g /\
    forall k,
      (forall e, nd_nth (Up g) k = Some e ->
         0 <= e /\
         e <= headroom a1 + headroom a2 + headroom a3 + headroom a4
              + headroom a5) /\
      (forall e, nd_nth (Down g) k = Some e ->
         footroom a1 + footroom a2 + footroom a3 + footroom a4
         + footroom a5 <= e /\ e <= 0).
Proof.
  exact (system_flexibility_bounded a1 a2 a3 a4 a5 time Hfleet).
Qed.

Lemma usable_sample_fleet :
  Forall (usable [1 # 2; 2; 3])
         [Some gas_asset; None; None; None; Some battery_asset].
Proof.
  repeat constructor; simpl; try (vm_compute; discriminate);
    try discriminate; lia.
Defined.

Lemma system_envelope_within_room_witness :
  exists g,
    system_flexibility (Some gas_asset) None None None (Some battery_asset)
                       [1 # 2; 2; 3] = Ok g /\
    forall e, nd_nth (Up g) 2 = Some e -> 0 <= e /\ e <= 3 + 0 + 0 + 0 + 1.
Proof.
  destruct (system_envelope_within_room (Some gas_asset) None None None
              (Some battery_asset) [1 # 2; 2; 3] usable_sample_fleet)
    as (g & Hret & _ & Hroom).
  exists g. split; [exact Hret|].
  intros e He. destruct (proj1 (Hroom 2%nat) e He) as [H0 H1].
  split; [exact H0|].
  unfold headroom, gas_asset, battery_asset in H1.
  cbn [Max_Output Output] in H1. lra.
Defined.

(** X16.  Over arguments of one grid, a result of the solver is always a
    first crossing: [max dist] and [max dist @time] are the entries of
    [upper] and [time] at the least index where [upper] is strictly below
    [Up], and [min dist] and [min dist @time] those of [lower] and [time]
    at the least index where [lower] is strictly above [Down]. *)
Theorem solver_result_is_first_crossing
  (f : flex) (c : curve) (time : list Q) (r : disturbance)
  (Hup : nd_fits (length time) (Up f))
  (Hdown : nd_fits (length time) (Down f))
  (Hupper : length (upper c) = length time)
  (Hlower : length (lower c) = length time)
  (Hret : get_max_min_disturbance f c time = Ok r) :
  exists i j,
    first_index (crosses_up f c) j /\ first_index (crosses_down f c) i /\
    nth_error (upper c) j = Some (max_dist r) /\
    nth_error time j = Some (max_dist_time r) /\
    nth_error (lower c) i = Some (min_dist r) /\
    nth_error time i = Some (min_dist_time r).
Proof.
  destruct (solver_outcome f c time Hup Hdown Hupper Hlower)
    as [(i & j & uj & li & tj & ti & Hi & Hj & Huj & Hli & Htj & Hti
         & Hret') | [_ Hret']]; rewrite Hret' in Hret; [|discriminate].
  injection Hret as <-. exists i, j. simpl. auto 7.
Qed.

Lemma solver_result_is_first_crossing_witness :
  exists i j,
    first_index (crosses_up crossing_flex sample_curve) j /\
    first_index (crosses_down crossing_flex sample_curve) i /\
    nth_error (upper sample_curve) j = Some 1 /\
    nth_error sample_time j = Some 3 /\
    nth_error (lower sample_curve) i = Some (- (3)) /\
    nth_error sample_time i = Some 2.
Proof.
  exact (solver_result_is_first_crossing crossing_flex sample_curve
           sample_time (mk_disturbance 1 (- (3)) 3 2)
           eq_refl eq_refl eq_refl eq_refl eq_refl).
Defined.

(** X17.  What the solver reports for the system envelope of a usable
    fleet lies strictly inside the room of the fleet: [max dist] is below
    the sum of the head rooms [maxOutput - output], and [min dist] is above
    the sum of the rooms downwards [minOutput - output]. *)
Theorem reported_disturbance_within_room
  (a1 a2 a3 a4 a5 : option asset) (time : list Q) (c : curve)
  (Hfleet : Forall (usable time) [a1; a2; a3; a4; a5])
  (Hupper : length (upper c) = length time)
  (Hlower : length (lower c) = length time) :
  exists g,
    system_flexibility a1 a2 a3 a4 a5 time = Ok g /\
    forall r, get_max_min_disturbance g c time = Ok r ->
      max_dist r < headroom a1 + headroom a2 + headroom a3 + headroom a4
                   + headroom a5 /\
      footroom a1 + footroom a2 + footroom a3 + footroom a4 + footroom a5
      < min_dist r.
Proof.
  destruct (system_flexibility_bounded a1 a2 a3 a4 a5 time Hfleet)
    as (g & Hg & [Fu Fd] & Hroom).
  exists g. split; [exact Hg|]. intros r Hr.
  destruct (solver_outcome g c time Fu Fd Hupper Hlower)
    as [(i & j & uj & li & tj & ti & [Hi _] & [Hj _] & Huj & Hli & _ & _
         & Hret) | [_ Hret]]; rewrite Hret in Hr; [|discriminate].
  injection Hr as <-. simpl.
  destruct Hj as (u & e & Hu & He & Hlt).
  destruct Hi as (l & e' & Hl & He' & Hgt).
  rewrite Huj in Hu. injection Hu as <-.
  rewrite Hli in Hl. injection Hl as <-.
  apply (proj1 (Hroom j)) in He. apply (proj2 (Hroom i)) in He'.
  split; lra.
Qed.

Lemma reported_disturbance_within_room_witness :
  exists g r,
    system_flexibility (Some gas_asset) None None None (Some battery_asset)
                       [1 # 2; 2; 3] = Ok g /\
    get_max_min_disturbance g sample_curve [1 # 2; 2; 3] = Ok r /\
    max_dist r < 3 + 0 + 0 + 0 + 1 /\
    - (7) + 0 + 0 + 0 + 0 < min_dist r.
Proof.
  destruct (reported_disturbance_within_room (Some gas_asset) None None None
              (Some battery_asset) [1 # 2; 2; 3] sample_curve
              usable_sample_fleet eq_refl eq_refl) as (g & Hg & Hroom).
  assert (Hsome : exists r,
             get_max_min_disturbance g sample_curve [1 # 2; 2; 3] = Ok r).
  { vm_compute in Hg. injection Hg as <-. vm_compute. eauto. }
  destruct Hsome as [r Hr]. exists g, r.
  split; [exact Hg|]. split; [exact Hr|].
  destruct (Hroom r Hr) as [Hmax Hmin].
  unfold headroom, footroom, gas_asset, battery_asset in Hmax, Hmin.
  cbn [Max_Output Min_Output Output] in Hmax, Hmin. split; lra.
Defined.



(** X19.  Without inertia the solver can only report zero: for a system
    with an inertia of zero the curve is returned, and whatever envelope
    the solver is given, a result has [max dist] and [min dist] zero. *)
Theorem no_inertia_reports_zero (sys : system) (time : list Q)
  (HK : inertia sys == 0)
  (Hfreq : ~ freq sys == 0) (Htime : forall t, In t time -> ~ t == 0) :
  exists c,
    get_power_disturbance_curve time sys = Ok c /\
    forall f r, get_max_min_disturbance f c time = Ok r ->
                max_dist r == 0 /\ min_dist r == 0.
Proof.
  destruct (disturbance_curve_without_inertia sys time HK Hfreq Htime)
    as (lo & up & Hc & _ & _ & Hup & Hlo).
  exists (mk_curve lo up). split; [exact Hc|].
  intros f r. unfold get_max_min_disturbance, np.argwhere0, np.getitem.
  simpl.
  destruct (nd_compare Qgt_bool lo (Down f)) as [below|];
    simpl; [|discriminate].
  destruct (np.first_true below) as [i|]; simpl; [|discriminate].
  destruct (nd_compare Qlt_bool up (Up f)) as [above|];
    simpl; [|discriminate].
  destruct (np.first_true above) as [j|]; simpl; [|discriminate].
  destruct (nth_error up j) as [uj|] eqn:Huj; simpl; [|discriminate].
  destruct (nth_error lo i) as [li|] eqn:Hli; simpl; [|discriminate].
  destruct (nth_error time j) as [tj|]; simpl; [|discriminate].
  destruct (nth_error time i) as [ti|]; simpl; [|discriminate].
  intros [= <-]. simpl. split.
  - apply Hup. eapply nth_error_In; eauto.
  - apply Hlo. eapply nth_error_In; eauto.
Qed.

Lemma no_inertia_reports_zero_witness :
  exists c r,
    get_power_disturbance_curve [1; 2; 3] (mk_system 0 60 59 61) = Ok c /\
    get_max_min_disturbance crossing_flex c [1; 2; 3] = Ok r /\
    max_dist r == 0 /\ min_dist r == 0.
Proof.
  assert (Htime : forall t, In t [1; 2; 3] -> ~ t == 0).
  { intros t Ht. simpl in Ht.
    repeat (destruct Ht as [<-|Ht]; [vm_compute; discriminate|]).
    contradiction. }
  destruct (no_inertia_reports_zero (mk_system 0 60 59 61) [1; 2; 3])
    as (c & Hc & Hzero);
    try exact Htime; try (vm_compute; (reflexivity || discriminate)).
  assert (Hsome : exists r,
             get_max_min_disturbance crossing_flex c [1; 2; 3] = Ok r).
  { vm_compute in Hc. injection Hc as <-. vm_compute. eauto. }
  destruct Hsome as [r Hr]. exists c, r.
  split; [exact Hc|]. split; [exact Hr|]. exact (Hzero _ _ Hr).
Defined.

(** ** The time grid *)

Lemma inject_nat_le (i k : nat) :
  (i <= k)%nat -> inject_Z (Z.of_nat i) <= inject_Z (Z.of_nat k).
Proof. intros H. rewrite <- Zle_Qle. now apply Nat2Z.inj_le. Qed.

Lemma inject_nat_pos (n : nat) : (0 < n)%nat -> 0 < inject_Z (Z.of_nat n).
Proof.
  intros H. change 0 with (inject_Z 0). rewrite <- Zlt_Qlt. lia.
Qed.

Lemma np_linspace_length (start stop : Q) (num : nat) :
  length (np_linspace start stop num) = num.
Proof. unfold np_linspace. now rewrite length_map, length_seq. Qed.

(** The sample of index [k], as a number. *)
Lemma np_linspace_nth (start stop : Q) (num k : nat) :
  (k < num)%nat ->
  exists t, nth_error (np_linspace start stop num) k = Some t /\
            t == start + inject_Z (Z.of_nat k)
                         * ((stop - start) / inject_Z (Z.of_nat (num - 1))).
Proof.
  intros Hk. unfold np_linspace.
  rewrite nth_error_map, nth_error_seq.
  destruct (Nat.ltb_spec k num) as [_|Hge]; [|lia]. simpl.
  eexists. split; [reflexivity|].
  destruct (Nat.ltb_spec 1 num) as [Hnum|Hnum]; simpl; [|ring].
  destruct (Nat.eqb_spec k (num - 1)) as [->|Hne]; [|ring].
  pose proof (inject_nat_pos (num - 1)) as Hpos.
  field. intros E. rewrite E in Hpos. assert (0 < 0) by (apply Hpos; lia).
  lra.
Qed.

(** X20.  [np.linspace] with [start < stop] and two samples or more gives
    a time grid: [num] samples from [start] to [stop], all between the two,
    each one a positive step [(stop - start) / (num - 1)] after the one
    before it; the [dt = time[1] - time[0]] of the energy limit is the step
    between any two neighbours. *)
Theorem linspace_is_a_time_grid (start stop : Q) (num : nat)
  (Hlt : start < stop) (Hnum : (2 <= num)%nat) :
  let time := np_linspace start stop num in
  let step := (stop - start) / inject_Z (Z.of_nat (num - 1)) in
  length time = num /\
  (exists t0, nth_error time 0 = Some t0 /\ t0 == start) /\
  nth_error time (num - 1) = Some stop /\
  (forall t, In t time -> start <= t /\ t <= stop) /\
  0 < step /\
  (forall k t t', nth_error time k = Some t ->
                  nth_error time (S k) = Some t' -> t' - t == step).
Proof.
  intros time step.
  pose proof (inject_nat_pos (num - 1) ltac:(lia)) as Hdiv.
  assert (Hstep : 0 < step).
  { unfold step. apply Qlt_shift_div_l; [exact Hdiv | lra]. }
  assert (Hspan : inject_Z (Z.of_nat (num - 1)) * step == stop - start).
  { unfold step. field. lra. }
  split; [apply np_linspace_length|]. split; [|split; [|split; [|split]]].
  - destruct (np_linspace_nth start stop num 0) as (t0 & H0 & E0); [lia|].
    exists t0. split; [exact H0|]. rewrite E0. simpl. ring.
  - unfold time, np_linspace. rewrite nth_error_map, nth_error_seq.
    destruct (Nat.ltb_spec (num - 1) num) as [_|Hge]; [|lia]. simpl.
    destruct (Nat.ltb_spec 1 num) as [_|Hge]; [|lia].
    now rewrite Nat.eqb_refl.
  - intros t Ht. apply In_nth_error in Ht. destruct Ht as [k Hk].
    assert (Hlen : (k < num)%nat).
    { rewrite <- (np_linspace_length start stop num).
      apply nth_error_Some. fold time. congruence. }
    destruct (np_linspace_nth start stop num k Hlen) as (t' & Hk' & E).
    fold time in Hk'. rewrite Hk in Hk'. injection Hk' as <-.
    fold step in E.
    pose proof (inject_nat_nonneg k) as Hk0.
    pose proof (inject_nat_le k (num - 1) ltac:(lia)) as Hkn.
    assert (0 <= inject_Z (Z.of_nat k) * step)
      by (apply Qmult_le_0_compat; lra).
    assert (inject_Z (Z.of_nat k) * step
            <= inject_Z (Z.of_nat (num - 1)) * step)
      by (apply Qmult_le_compat_r; lra).
    rewrite E. split; lra.
  - exact Hstep.
  - intros k t t' Hk Hk'.
    assert (Hlen : (S k < num)%nat).
    { rewrite <- (np_linspace_length start stop num).
      apply nth_error_Some. fold time. congruence. }
    destruct (np_linspace_nth start stop num k ltac:(lia)) as (x & Hx & Ex).
    destruct (np_linspace_nth start stop num (S k) Hlen) as (y & Hy & Ey).
    fold time in Hx, Hy. rewrite Hk in Hx. rewrite Hk' in Hy.
    injection Hx as <-. injection Hy as <-.
    fold step in Ex, Ey. rewrite Ex, Ey, (inject_nat_succ k). ring.
Qed.

Lemma linspace_is_a_time_grid_witness :
  length (np_linspace (1 # 10) 5 50) = 50%nat /\
  nth_error (np_linspace (1 # 10) 5 50) 49 = Some 5 /\
  forall t, In t (np_linspace (1 # 10) 5 50) -> (1 # 10) <= t /\ t <= 5.
Proof.
  destruct (linspace_is_a_time_grid (1 # 10) 5 50)
    as (Hlen & _ & Hlast & Hin & _); [reflexivity | lia |].
  auto.
Defined.

(** X21.  On the time grid of the script, [np.linspace(0.1, time_max,
    1000)] with [time_max] above 0.1, the calls do not fail on the grid:
    for every asset that has ['Energy'] when it has ['Charge'] the envelope
    is returned, for every system with a frequency other than zero the
    curve is returned, and all four arrays have 1000 entries. *)
Theorem script_grid_calls_return (time_max : Q) (a : asset) (sys : system)
  (Hmax : (1 # 10) < time_max)
  (Hkeys : Charge a <> None -> Energy a <> None)
  (Hfreq : ~ freq sys == 0) :
  exists ups downs lo up,
    get_asset_flexibility (Some a) (script_time time_max) =
      Ok (mk_flex (Arr ups) (Arr downs) (Some (Output a))) /\
    get_power_disturbance_curve (script_time time_max) sys =
      Ok (mk_curve lo up) /\
    length ups = 1000%nat /\ length downs = 1000%nat /\
    length lo = 1000%nat /\ length up = 1000%nat.
Proof.
  assert (Hlen : length (script_time time_max) = 1000%nat)
    by apply np_linspace_length.
  assert (Hcall : callable a (script_time time_max)).
  { unfold callable. destruct (Charge a); [|exact I].
    split; [apply Hkeys; discriminate | rewrite Hlen; lia]. }
  assert (Htime : forall t, In t (script_time time_max) -> ~ t == 0).
  { intros t Ht. apply In_nth_error in Ht. destruct Ht as [k Hk].
    assert (Hk1000 : (k < 1000)%nat)
      by (rewrite <- Hlen; apply nth_error_Some; congruence).
    destruct (np_linspace_nth (1 # 10) time_max 1000 k Hk1000)
      as (t' & Hk' & E).
    fold (script_time time_max) in Hk'. rewrite Hk in Hk'.
    injection Hk' as <-.
    pose proof (inject_nat_nonneg k) as Hk0.
    assert (Hstep : 0 <= (time_max - (1 # 10))
                         / inject_Z (Z.of_nat (1000 - 1)))
      by (apply Qdiv_nonneg; [lra | reflexivity]).
    assert (0 <= inject_Z (Z.of_nat k)
                 * ((time_max - (1 # 10)) / inject_Z (Z.of_nat (1000 - 1))))
      by (apply Qmult_le_0_compat; assumption).
    rewrite E. lra. }
  destruct (get_asset_flexibility_callable a _ Hcall)
    as (ups & downs & Hret & Hlu & Hld & _).
  destruct (disturbance_curve_nth sys _ Hfreq Htime)
    as (lo & up & Hc & Hllo & Hlup & _).
  exists ups, downs, lo, up. rewrite Hlen in *. auto 7.
Qed.

Lemma script_grid_calls_return_witness :
  exists ups downs lo up,
    get_asset_flexibility (Some battery_asset) (script_time 5) =
      Ok (mk_flex (Arr ups) (Arr downs) (Some (Output battery_asset))) /\
    get_power_disturbance_curve (script_time 5) default_system =
      Ok (mk_curve lo up) /\
    length ups = 1000%nat /\ length downs = 1000%nat /\
    length lo = 1000%nat /\ length up = 1000%nat.
Proof.
  apply script_grid_calls_return.
  - reflexivity.
  - intros _. discriminate.
  - vm_compute. discriminate.
Defined.

(** More flexibility never lowers what the solver reports, and never
    delays it. *)
Lemma more_flexibility_core (sys : system) (time : list Q) (f f' : flex) :
  0 <= inertia sys -> 0 < freq_min sys -> freq_min sys <= freq sys ->
  freq sys <= freq_max sys ->
  (forall t, In t time -> 0 < t) -> ascending time ->
  flex_fits (length time) f -> flex_fits (length time) f' ->
  at_least_as_flexible (length time) f f' ->
  exists c,
    get_power_disturbance_curve time sys = Ok c /\
    forall r, get_max_min_disturbance f c time = Ok r ->
      exists r',
        get_max_min_disturbance f' c time = Ok r' /\
        max_dist r <= max_dist r' /\ max_dist_time r' <= max_dist_time r /\
        min_dist r' <= min_dist r /\ min_dist_time r' <= min_dist_time r.
Proof.
  intros HK Hmin Hfreq Hmax Htime Hasc [Fu Fd] [Fu' Fd'] Hmore.
  destruct (disturbance_curve_band sys time HK Hmin Hfreq Hmax Htime)
    as (lo & up & Hc & Hllo & Hlup & Hband).
  exists (mk_curve lo up). split; [exact Hc|]. intros r Hr.
  destruct (solver_outcome f (mk_curve lo up) time Fu Fd Hlup Hllo)
    as [(i & j & uj & li & tj & ti & [Hi _] & [Hj _] & Huj & Hli & Htj & Hti
         & Hret) | [_ Hret]]; rewrite Hret in Hr; [|discriminate].
  injection Hr as <-. simpl in Huj, Hli.
  assert (Hj' : crosses_up f' (mk_curve lo up) j).
  { destruct Hj as (u & e & Hu & He & Hlt).
    assert (Hjn : (j < length time)%nat)
      by (apply nth_error_Some; congruence).
    destruct (proj1 (Hmore j Hjn) e He) as (e' & He' & Hle).
    exists u, e'. repeat split; try assumption. lra. }
  assert (Hi' : crosses_down f' (mk_curve lo up) i).
  { destruct Hi as (l & e & Hl & He & Hgt).
    assert (Hin : (i < length time)%nat)
      by (apply nth_error_Some; congruence).
    destruct (proj2 (Hmore i Hin) e He) as (e' & He' & Hle).
    exists l, e'. repeat split; try assumption. lra. }
  destruct (solver_outcome f' (mk_curve lo up) time Fu' Fd' Hlup Hllo)
    as [(i' & j' & uj' & li' & tj' & ti' & [_ Hifirst] & [_ Hjfirst]
         & Huj' & Hli' & Htj' & Hti' & Hret')
       | [[Hnone|Hnone] _]];
    [| exfalso; apply Hnone; eauto | exfalso; apply Hnone; eauto].
  simpl in Huj', Hli'.
  assert (Hjle : (j' <= j)%nat).
  { destruct (le_lt_dec j' j) as [H|H]; [exact H|].
    now apply Hjfirst in H. }
  assert (Hile : (i' <= i)%nat).
  { destruct (le_lt_dec i' i) as [H|H]; [exact H|].
    now apply Hifirst in H. }
  pose proof (Hasc j' j tj' tj Hjle Htj' Htj) as Htjle.
  pose proof (Hasc i' i ti' ti Hile Hti' Hti) as Htile.
  destruct (Hband j' j tj' tj Htj' Htj Htjle)
    as (u1 & u2 & _ & _ & Hu1 & Hu2 & _ & _ & _ & Hule & _).
  destruct (Hband i' i ti' ti Hti' Hti Htile)
    as (_ & _ & l1 & l2 & _ & _ & Hl1 & Hl2 & _ & _ & Hlle & _).
  rewrite Huj' in Hu1. rewrite Huj in Hu2.
  rewrite Hli' in Hl1. rewrite Hli in Hl2.
  injection Hu1 as <-. injection Hu2 as <-.
  injection Hl1 as <-. injection Hl2 as <-.
  eexists. split; [exact Hret'|]. simpl. auto.
Qed.


Lemma sample_grid_ascending : ascending [1; 2; 3].
Proof.
  intros i k t t' Hik Hi Hk.
  assert (Hi3 : (i < 3)%nat)
    by (apply (nth_error_Some [1; 2; 3]); congruence).
  assert (Hk3 : (k < 3)%nat)
    by (apply (nth_error_Some [1; 2; 3]); congruence).
  destruct i as [|[|[|i]]], k as [|[|[|k]]]; simpl in Hi, Hk; try lia;
    injection Hi as <-; injection Hk as <-; vm_compute; discriminate.
Defined.

Lemma sample_grid_positive : forall t, In t [1; 2; 3] -> 0 < t.
Proof.
  intros t Ht. simpl in Ht.
  repeat (destruct Ht as [<-|Ht]; [reflexivity|]). contradiction.
Defined.


Lemma nd_fits_nth (n : nat) (v : ndval) (k : nat) :
  nd_fits n v -> (k < n)%nat -> exists e, nd_nth v k = Some e.
Proof.
  destruct v as [x|xs]; simpl; intros Hfit Hk; [eauto|].
  apply nth_error_in_range. lia.
Qed.

(** Where an asset is switched on, the envelope of the place offers at
    least what it offered. *)
Lemma switched_on_flex (time : list Q) (a b : option asset) :
  switched_on a b -> usable time b ->
  exists f f',
    get_asset_flexibility a time = Ok f /\
    get_asset_flexibility b time = Ok f' /\
    flex_fits (length time) f /\ flex_fits (length time) f' /\
    at_least_as_flexible (length time) f f'.
Proof.
  intros Hon Hb.
  destruct (asset_flex_bounded time b Hb) as (f' & Hf' & Ff' & Bf').
  destruct Hon as [->| ->].
  - exists zero_flex, f'. split; [reflexivity|]. split; [exact Hf'|].
    split; [split; exact I|]. split; [exact Ff'|].
    intros k Hk. simpl. split; intros e [= <-].
    + destruct (nd_fits_nth _ _ k (proj1 Ff') Hk) as [e' He'].
      exists e'. split; [exact He'|]. now apply (proj1 (Bf' k)).
    + destruct (nd_fits_nth _ _ k (proj2 Ff') Hk) as [e' He'].
      exists e'. split; [exact He'|]. now apply (proj2 (Bf' k)).
  - exists f', f'. repeat (split; [assumption|]).
    intros k Hk. split; intros e He; exists e; split; auto; apply Qle_refl.
Qed.

Lemma opt_add_more (o1 o2 o1' o2' : option Q) :
  (forall x, o1 = Some x -> exists x', o1' = Some x' /\ x <= x') ->
  (forall y, o2 = Some y -> exists y', o2' = Some y' /\ y <= y') ->
  forall e, opt_add o1 o2 = Some e ->
  exists e', opt_add o1' o2' = Some e' /\ e <= e'.
Proof.
  intros H1 H2 e He. apply opt_add_some in He.
  destruct He as (x & y & -> & -> & ->).
  destruct (H1 x eq_refl) as (x' & -> & Hx).
  destruct (H2 y eq_refl) as (y' & -> & Hy).
  exists (x' + y'). split; [reflexivity | lra].
Qed.

Lemma opt_add_less (o1 o2 o1' o2' : option Q) :
  (forall x, o1 = Some x -> exists x', o1' = Some x' /\ x' <= x) ->
  (forall y, o2 = Some y -> exists y', o2' = Some y' /\ y' <= y) ->
  forall e, opt_add o1 o2 = Some e ->
  exists e', opt_add o1' o2' = Some e' /\ e' <= e.
Proof.
  intros H1 H2 e He. apply opt_add_some in He.
  destruct He as (x & y & -> & -> & ->).
  destruct (H1 x eq_refl) as (x' & -> & Hx).
  destruct (H2 y eq_refl) as (y' & -> & Hy).
  exists (x' + y'). split; [reflexivity | lra].
Qed.

(** X23.  Switching an asset type on never lowers what the solver reports.
    For a usable fleet and the same fleet with some of its places empty,
    a system with an inertia that is not negative and
    [0 < freq_min <= freq <= freq_max], and a positive time grid that never
    runs backwards: both
    system envelopes are returned, and if the solver returns for the
    smaller fleet it returns for the larger one, with a [max dist] that is
    not smaller, a [min dist] that is not larger, and both not later. *)
Theorem switching_on_never_lowers_tolerance
  (a1 a2 a3 a4 a5 b1 b2 b3 b4 b5 : option asset)
  (sys : system) (time : list Q)
  (Hfleet : Forall (usable time) [b1; b2; b3; b4; b5])
  (Hon : Forall2 switched_on [a1; a2; a3; a4; a5] [b1; b2; b3; b4; b5])
  (HK : 0 <= inertia sys)
  (Hmin : 0 < freq_min sys) (Hfreq : freq_min sys <= freq sys)
  (Hmax : freq sys <= freq_max sys)
  (Htime : forall t, In t time -> 0 < t) (Hasc : ascending time) :
  exists g g' c,
    system_flexibility a1 a2 a3 a4 a5 time = Ok g /\
    system_flexibility b1 b2 b3 b4 b5 time = Ok g' /\
    get_power_disturbance_curve time sys = Ok c /\
    forall r, get_max_min_disturbance g c time = Ok r ->
      exists r',
        get_max_min_disturbance g' c time = Ok r' /\
        max_dist r <= max_dist r' /\ max_dist_time r' <= max_dist_time r /\
        min_dist r' <= min_dist r /\ min_dist_time r' <= min_dist_time r.
Proof.
  assert (Hb : forall b, In b [b1; b2; b3; b4; b5] -> usable time b)
    by (now apply Forall_forall).
  inversion Hon as [|? ? ? ? On1 Hon1]; subst.
  inversion Hon1 as [|? ? ? ? On2 Hon2]; subst.
  inversion Hon2 as [|? ? ? ? On3 Hon3]; subst.
  inversion Hon3 as [|? ? ? ? On4 Hon4]; subst.
  inversion Hon4 as [|? ? ? ? On5 _]; subst.
  destruct (switched_on_flex time a1 b1 On1)
    as (f1 & f1' & R1 & R1' & F1 & F1' & M1); [apply Hb; simpl; tauto|].
  destruct (switched_on_flex time a2 b2 On2)
    as (f2 & f2' & R2 & R2' & F2 & F2' & M2); [apply Hb; simpl; tauto|].
  destruct (switched_on_flex time a3 b3 On3)
    as (f3 & f3' & R3 & R3' & F3 & F3' & M3); [apply Hb; simpl; tauto|].
  destruct (switched_on_flex time a4 b4 On4)
    as (f4 & f4' & R4 & R4' & F4 & F4' & M4); [apply Hb; simpl; tauto|].
  destruct (switched_on_flex time a5 b5 On5)
    as (f5 & f5' & R5 & R5' & F5 & F5' & M5); [apply Hb; simpl; tauto|].
  destruct (aggregation_entrywise (length time) f1 f2 f3 f4 f5
              F1 F2 F3 F4 F5) as (g & Hg & Fg & _ & Eg).
  destruct (aggregation_entrywise (length time)
              f1' f2' f3' f4' f5' F1' F2' F3' F4' F5')
    as (g' & Hg' & Fg' & _ & Eg').
  assert (Hmore : at_least_as_flexible (length time) g g').
  { intros k Hk. destruct (Eg k) as [Eu Ed]. destruct (Eg' k) as [Eu' Ed'].
    rewrite Eu, Eu', Ed, Ed'. split.
    - repeat (apply opt_add_more; [|apply (proj1 (M5 k Hk))
                                   || apply (proj1 (M4 k Hk))
                                   || apply (proj1 (M3 k Hk))
                                   || apply (proj1 (M2 k Hk))]).
      apply (proj1 (M1 k Hk)).
    - repeat (apply opt_add_less; [|apply (proj2 (M5 k Hk))
                                   || apply (proj2 (M4 k Hk))
                                   || apply (proj2 (M3 k Hk))
                                   || apply (proj2 (M2 k Hk))]).
      apply (proj2 (M1 k Hk)). }
  destruct (more_flexibility_core sys time g g' HK Hmin Hfreq Hmax Htime
              Hasc Fg Fg' Hmore) as (c & Hc & Hsolve).
  exists g, g', c. unfold system_flexibility.
  rewrite R1, R2, R3, R4, R5, R1', R2', R3', R4', R5'. simpl. auto.
Qed.

Lemma usable_larger_fleet :
  Forall (usable [1; 2; 3])
         [Some gas_asset; None; None; None; Some battery_asset].
Proof.
  assert (Hgas : usable [1; 2; 3] (Some gas_asset)).
  { split; [exact I|]. split; vm_compute; discriminate. }
  assert (Hbat : usable [1; 2; 3] (Some battery_asset)).
  { split; [split; [discriminate | simpl; lia]|].
    split; vm_compute; discriminate. }
  repeat (apply Forall_cons; [assumption || exact I|]). apply Forall_nil.
Defined.

Lemma switching_on_never_lowers_tolerance_witness :
  exists g g' c r r',
    system_flexibility (Some gas_asset) None None None None [1; 2; 3]
      = Ok g /\
    system_flexibility (Some gas_asset) None None None (Some battery_asset)
                       [1; 2; 3] = Ok g' /\
    get_power_disturbance_curve [1; 2; 3] default_system = Ok c /\
    get_max_min_disturbance g c [1; 2; 3] = Ok r /\
    get_max_min_disturbance g' c [1; 2; 3] = Ok r' /\
    max_dist r <= max_dist r' /\ min_dist r' <= min_dist r.
Proof.
  destruct (switching_on_never_lowers_tolerance
              (Some gas_asset) None None None None
              (Some gas_asset) None None None (Some battery_asset)
              default_system [1; 2; 3])
    as (g & g' & c & Hg & Hg' & Hc & Hmore);
    try (vm_compute; (reflexivity || discriminate));
    try exact sample_grid_positive; try exact sample_grid_ascending.
  - exact usable_larger_fleet.
  - repeat (apply Forall2_cons; [unfold switched_on; auto|]).
    apply Forall2_nil.
  - assert (Hsome : exists r, get_max_min_disturbance g c [1; 2; 3] = Ok r).
    { vm_compute in Hg, Hc. injection Hg as <-. injection Hc as <-.
      vm_compute. eauto. }
    destruct Hsome as [r Hr].
    destruct (Hmore r Hr) as (r' & Hr' & Hmax & _ & Hmin & _).
    exists g, g', c, r, r'. auto 8.
Defined.
